(* ===== verification/_CoqProject ===== *)
-Q . S2P
Prelude.v
JsRandom.v
MoodMapper.v
Selector.v
Session.v
Lifecycle.v
Page.v
