(* ===== verification/Prelude.v ===== *)
(** * Emotify: a verification development of the mood-music widget

    The program is one React component, [src/src/components/MainComponen.js]
    ([MainComponent]).  It keeps eight [useState] cells, three [useEffect]
    hooks and four closures, and talks to four external collaborators:
    the face-api model loader, the browser geolocation callback, the
    weatherapi.com HTTP call and the Shazam search HTTP call.  Its parts:

    - the mood mapper: the [quotes] object (lines 20-56),
      [getBackgroundColor] (69-88), [getRandomQuote] (100-107) and
      [announceEmotion] (110-114);
    - the song selector: the body of the search response callback
      (176-198), which draws [randomCount] in {3,4,5} and then loops
      [while (songIndexes.size < randomCount)] drawing random indices and
      keeping the ones not seen before;
    - the session controller: the component state (59-66), the three
      effects (91-97, 116-143, 145-147), [recommendSongs] (150-204), the
      seven mood buttons (219-239) and the webcam modal (242-255);
    - the page: the element tree the component returns (206-311).

    ** Files and what they model

    - [Prelude.v] (this file): the notation scope [emotify_scope], the
      hint database [emotify], the tactics shared by the development, the
      list function [first_distinct] (keep the first occurrence of each
      value) with its lemmas, which is the reference the selection loop is
      proved against, and [split_at], the reader of a string joined with
      a separator, with its round-trip lemmas.
    - [JsRandom.v]: [Math.random()] as the typeclass [RandomSource], an
      infinite stream of draws [draw i], each an integer [r] with
      [0 <= r < 2^53] standing for the double [r / 2^53]; and
      [floor_scaled r n], the expression [Math.floor(Math.random() * n)]:
      the product rounded to a double by [round_binary64] (53 significant
      bits, round to nearest, ties to even), then floored.  [floor_exact]
      is the same expression in exact arithmetic, for comparison.
    - [MoodMapper.v]: the [quotes] table as a stdpp [gmap string (list
      string)] with the property read [quotes[mood]] as a JavaScript
      value ([prop_value]: the own array, a method or the object that
      every object inherits from [Object.prototype], or [undefined]),
      [getBackgroundColor] as the [switch] on [===] string equality,
      [getRandomQuote] returning [option string] ([None] is JavaScript's
      [undefined]) and calling [Math.random()] only when [quotes[mood]]
      is truthy, [announceEmotion]'s message.
    - [Selector.v]: one loop iteration [loop_body], the loop [select_loop]
      (fuel-bounded; [None] is "still looping when the fuel ran out"), and
      [pickSongs], the whole [then]-callback body.
    - [Session.v]: the component state as the record [State] (the eight
      [useState] cells, the page background, the log of alerts, speech and
      console errors, the cursor into the random stream, the in-flight
      asynchronous operations); the events of the page as [Event]; the
      handlers and the React commit of the effects as [handle]; the step
      relation [step] and reachability [reachable] from [initial]; the
      session invariant, the behaviour of a click and of a search
      response, and runs of concrete sessions.
    - [Lifecycle.v]: induction over reachable states, the quote cell, the geolocation
      callback and the weather calls, the webcam detections and the error
      paths of the models, over the model of [Session.v].
    - [Page.v]: [render], the element tree of [MainComponent] as the
      values it shows.

    ** What the theorems show (claim ids of the manifest)

    - Selector, the core: the loop is equivalent to the reference "the
      first [count] distinct indices among the draws", for every fuel (C1);
      it terminates with the fuel of the draws it needs (C12); it
      never terminates when fewer songs than [count] came back, for every
      fuel (C5), so a response
      of one or two tracks freezes the page (C2, a bug the spec asks to
      fix); every finished selection refines the spec's contract
      [select_contract]: 3 to 5 defined tracks at distinct indices (C3),
      and conversely every selection the contract allows is made for
      some random stream (C21); [randomCount] is 3, 4 or 5 and each is
      drawn (C13).
    - Session: every reachable state satisfies [session_inv] (C4): the
      loader on implies no songs shown; the shown songs are none or 3 to
      5 defined tracks; background and quote belong to the current mood;
      every search in flight carries the fixed options and a non-empty
      weather.  The grid, when shown, has the mood's shape, quote and
      gradient (C9).  Only a search response clears the loader (C10).
      Divergences from the spec, proved: a stale response overwrites a
      newer one (C6, a concrete run); a click on a new mood sends two
      searches (C7); a click without weather leaves the loader on (C8);
      a failed search reaches only the console (C14).
    - Lifecycle: in a state showing a mood, the quote cell holds
      [undefined] exactly when the mood names a member of
      [Object.prototype] (C29, the type of the cell); the
      location is a "lat,lon" string set once, and the weather requests
      in flight are for it (C30).  Round trips: the stored location reads
      back as the coordinates (C22), the search term as the mood and the
      weather (C24).  A detection sends one search (C26), a repeated
      detection none (C25); an empty response keeps earlier songs under
      the alert (C27); a failed model load is silent (C28); the location
      arriving first loads the models twice (C23).
    - Page: the weather line tells whether a click searches
      (C32); the webcam modal opens while the models load (C33).
    - MoodMapper: [getRandomQuote] returns a quote of the pool or [""]
      (C11), reaches every quote (C17), and returns [undefined] for the
      names inherited from [Object.prototype] (C18); [getBackgroundColor]
      gives each of the seven moods a gradient no other string gets
      (C19) and its default exactly off the seven moods (C20).
    - JsRandom: with the rounded product, [floor_scaled] is in range for
      every [n] (C15), onto for [n <= 2^52] (C16), and the exact floor or
      one more, the latter happening (C31); the draws giving each index
      form one interval of [2^53 / n] draws up to two (C34), so the
      choice is uniform up to that error.

    ** Bounds and fuel

    The only unbounded loop of the program is the selection loop.  It is
    modelled with explicit fuel counting iterations; the correctness
    theorem holds for every fuel, the termination theorem gives the fuel
    (the number of draws the reference needs), the non-termination
    theorem holds for every fuel, and the theorems on [handle] quantify
    over the fuel, so none depends on the fuel chosen.
    Each other handler is loop-free.  The concrete runs use fuel 100 and
    the Weyl generator of [JsRandom.v]; the completeness theorem (C21)
    builds its own finite stream of draws.  The products of the model
    stay below [2^106], far from the double range's overflow, and are
    zero or at least [2^-53], far from its subnormals, so rounding to 53
    significant bits is the whole of IEEE multiplication here; the onto
    results need [n <= 2^52] so that the half-unit of rounding stays
    below the distance to the next integer.

    ** Not modelled

    The face-api networks, the webcam capture and [WebcamModal] and
    [SongCard] (not in [src/]) are external: the webcam's [setEmotion]
    callback is an event carrying any string.  HTTP, geolocation and
    speech are modelled only through their observable effects (pending
    operations, their responses as events, the log).  Styling (the
    [styled(Paper)] [Item] of lines 12-17 and the [style]/[sx] props) is
    not modelled; the imports (lines 1-11) have no behaviour.  Every
    state change of [src/] is a definition of the development; what is
    left is outside [src/] ([WebcamModal], [SongCard], the face-api.js
    networks, the browser and the HTTP services) or has no behaviour. *)

From stdpp Require Export base list gmap strings.
From Stdlib Require Export ZArith Lia Ascii.

Declare Scope emotify_scope.
Delimit Scope emotify_scope with emo.

(** JavaScript string concatenation [a + b] on strings. *)
Notation "a +s b" := (String.append a b)
  (at level 60, right associativity) : emotify_scope.

Create HintDb emotify discriminated.
Create Rewrite HintDb emotify_rw.

(** Invert a hypothesis and clean up. *)
Ltac invc H := inversion H; subst; clear H.

(** Split the [if]s of a goal on [decide] and on boolean tests. *)
Ltac case_ifs :=
  repeat match goal with
  | |- context [if decide ?P then _ else _] => destruct (decide P)
  | |- context [if ?b then _ else _] =>
      let E := fresh "E" in destruct b eqn:E
  end.

(** ** Keeping the first occurrence of each value *)

Section FirstDistinct.
Context {A : Type} `{EqDecision A}.

(** One step of "add [x] to the set if it is not there", the set kept
    as the list of its elements in insertion order. *)
Definition dedup_step (acc : list A) (x : A) : list A :=
  if decide (x ∈ acc) then acc else acc ++ [x].

(** The distinct values of [l], each at its first occurrence. *)
Definition first_distinct (l : list A) : list A :=
  fold_left dedup_step l [].

Lemma dedup_step_prefix acc x : acc `prefix_of` dedup_step acc x.
Proof. unfold dedup_step. case_ifs; [done | by eexists]. Qed.

Lemma dedup_step_NoDup acc x : NoDup acc -> NoDup (dedup_step acc x).
Proof.
  unfold dedup_step. intros Hnd. case_ifs; [done |].
  apply NoDup_app. split; [done | split; [set_solver | apply NoDup_singleton]].
Qed.

Lemma dedup_step_length acc x :
  length (dedup_step acc x) <= S (length acc).
Proof. unfold dedup_step. case_decide; rewrite ?length_app; simpl; lia. Qed.

Lemma elem_of_dedup_step acc x y : y ∈ dedup_step acc x <-> y ∈ acc \/ y = x.
Proof. unfold dedup_step. case_ifs; set_solver. Qed.

Lemma fold_dedup_prefix l acc : acc `prefix_of` fold_left dedup_step l acc.
Proof.
  revert acc. induction l as [|x l IH]; intros acc; simpl; [done |].
  etrans; [apply dedup_step_prefix | apply IH].
Qed.

Lemma fold_dedup_NoDup l acc : NoDup acc -> NoDup (fold_left dedup_step l acc).
Proof.
  revert acc. induction l as [|x l IH]; intros acc Hnd; simpl; [done |].
  by apply IH, dedup_step_NoDup.
Qed.

Lemma elem_of_fold_dedup l acc y :
  y ∈ fold_left dedup_step l acc <-> y ∈ acc \/ y ∈ l.
Proof.
  revert acc. induction l as [|x l IH]; intros acc; simpl; [set_solver |].
  rewrite IH, elem_of_dedup_step. set_solver.
Qed.

Lemma first_distinct_snoc l x :
  first_distinct (l ++ [x]) = dedup_step (first_distinct l) x.
Proof. unfold first_distinct. by rewrite fold_left_app. Qed.

Lemma first_distinct_NoDup l : NoDup (first_distinct l).
Proof. apply fold_dedup_NoDup, NoDup_nil_2. Qed.

Lemma elem_of_first_distinct l y : y ∈ first_distinct l <-> y ∈ l.
Proof. unfold first_distinct. rewrite elem_of_fold_dedup. set_solver. Qed.

Lemma first_distinct_prefix l l' :
  first_distinct l `prefix_of` first_distinct (l ++ l').
Proof. unfold first_distinct. rewrite fold_left_app. apply fold_dedup_prefix. Qed.
Lemma fold_dedup_length l acc :
  length (fold_left dedup_step l acc) <= length acc + length l.
Proof.
  revert acc. induction l as [|x l IH]; intros acc; simpl; [lia |].
  etrans; [apply IH |]. pose proof (dedup_step_length acc x). lia.
Qed.

Lemma first_distinct_length l : length (first_distinct l) <= length l.
Proof. apply fold_dedup_length. Qed.

Lemma fold_dedup_NoDup_id l acc :
  NoDup (acc ++ l) -> fold_left dedup_step l acc = acc ++ l.
Proof.
  revert acc. induction l as [|x l IH]; intros acc Hnd; simpl; [by rewrite app_nil_r |].
  unfold dedup_step at 2. rewrite decide_False.
  - rewrite IH; [by rewrite <- app_assoc | by rewrite <- app_assoc].
  - intros Hx. apply NoDup_app in Hnd as (_ & Hdis & _). by apply (Hdis x); [| left].
Qed.

(** A list without duplicates is its own [first_distinct]. *)
Lemma first_distinct_NoDup_id l : NoDup l -> first_distinct l = l.
Proof. intros Hnd. by apply fold_dedup_NoDup_id. Qed.
End FirstDistinct.

#[export] Hint Resolve first_distinct_NoDup dedup_step_NoDup : emotify.
#[export] Hint Rewrite @first_distinct_snoc : emotify_rw.

(** A duplicate-free list of indices below [n] has at most [n] elements. *)
Lemma NoDup_bounded_length (l : list nat) (n : nat) :
  NoDup l -> (forall i, i ∈ l -> i < n) -> length l <= n.
Proof.
  intros Hnd Hlt. transitivity (length (seq 0 n)); [| by rewrite length_seq].
  apply NoDup_incl_length; [by apply NoDup_ListNoDup |].
  intros i Hi. apply list_elem_of_In in Hi. apply list_elem_of_In, elem_of_seq.
  specialize (Hlt i Hi). lia.
Qed.

#[export] Hint Resolve NoDup_bounded_length : emotify.

(** ** Splitting a string at the first occurrence of a character

    The component joins two strings with a separator twice: the location
    [latitude + "," + longitude] (line 132) and the search term
    [mood + " " + weather] (line 163).  [split_at c s] is the reader's
    side: the part before the first [c] and the part after it. *)

Fixpoint has_char (c : Ascii.ascii) (s : string) : bool :=
  match s with
  | EmptyString => false
  | String a s' => bool_decide (a = c) || has_char c s'
  end.

Fixpoint split_at (c : Ascii.ascii) (s : string) : option (string * string) :=
  match s with
  | EmptyString => None
  | String a s' =>
      if decide (a = c) then Some (EmptyString, s')
      else match split_at c s' with
           | Some (x, y) => Some (String a x, y)
           | None => None
           end
  end.

(** Joining with a separator absent from the left part, then splitting,
    gives the parts back. *)
Lemma split_at_append c x y :
  has_char c x = false -> split_at c (String.append x (String c y)) = Some (x, y).
Proof.
  induction x as [|a x IH]; simpl; intros Hx; [by rewrite decide_True |].
  apply orb_false_iff in Hx as [Ha Hx]. apply bool_decide_eq_false in Ha.
  rewrite decide_False by done. by rewrite IH.
Qed.

(** Splitting, then joining, gives the string back. *)
Lemma split_at_Some c s x y :
  split_at c s = Some (x, y) -> s = String.append x (String c y) /\ has_char c x = false.
Proof.
  revert x. induction s as [|a s IH]; intros x; simpl; [done |].
  case_decide as Ha; [intros [= <- <-]; by subst |].
  destruct (split_at c s) as [[x' y']|] eqn:E; [| done]. intros [= <- ->].
  destruct (IH x' eq_refl) as [-> Hx]. simpl. rewrite Hx, bool_decide_eq_false_2 by done.
  done.
Qed.

(** There is no split without the separator. *)
Lemma split_at_None c s : has_char c s = false -> split_at c s = None.
Proof.
  induction s as [|a s IH]; simpl; [done |].
  intros [Ha Hs]%orb_false_iff. apply bool_decide_eq_false in Ha.
  rewrite decide_False by done. by rewrite IH.
Qed.
