(* ===== verification/JsRandom.v ===== *)
(** * [Math.random()] and [Math.floor(Math.random() * n)]

    The component calls [Math.random()] in three places: the quote index
    (line 103), the number of songs (line 180) and each song index (line
    185), always as [Math.floor(Math.random() * n)] (plus 3 at line 180).
    The global generator is the interface [RandomSource]: an infinite
    stream of draws, each an integer [r] in [[0, 2^53)] standing for the
    double [r / 2^53].  The session threads a cursor into the stream, so
    that each call of [Math.random()] consumes the next draw.  The
    product [Math.random() * n] is rounded to a double ([round_binary64])
    before [Math.floor]; [floor_exact] reads it in exact arithmetic, and
    the two are compared.  The last section characterises the draws
    that give each index: an interval starting at [draw_for i n] or one
    draw before it. *)

From S2P Require Import Prelude.

Local Open Scope Z_scope.

(** The denominator of a draw: [Math.random()] returns [r / random_unit]. *)
Definition random_unit : Z := 2 ^ 53.

(** What the program assumes of [Math.random()]: every draw lies in
    [[0, 1)]. *)
Class RandomSource := {
  draw : nat -> Z;
  draw_range : forall i, 0 <= draw i < random_unit
}.

(** The product [Math.random() * n] of the double [r / 2^53] and the
    integer [n] is rounded to a double: 53 significant bits, round to
    nearest, ties to even.  Scaled by [2^53] the exact product is the
    integer [x = r * n]; [round_half_even x e] is the quotient [k] of the
    multiple [k * 2^e] nearest to [x]. *)
Definition round_half_even (x e : Z) : Z :=
  let q := x / 2 ^ e in
  let rm := x mod 2 ^ e in
  if 2 * rm <? 2 ^ e then q
  else if 2 ^ e <? 2 * rm then q + 1
  else if Z.even q then q else q + 1.

(** The double nearest to the non-negative integer [x] (all values here
    are far from overflow and from the subnormal range): exact below
    [2^53], otherwise rounded at the bit [2^e] that leaves 53 significant
    bits. *)
Definition round_binary64 (x : Z) : Z :=
  if x <? 2 ^ 53 then x
  else let e := Z.log2 x - 52 in round_half_even x e * 2 ^ e.

(** [Math.floor(Math.random() * n)] for the draw [r / random_unit]: the
    floor of the rounded product. *)
Definition floor_scaled (r : Z) (n : nat) : nat :=
  Z.to_nat (round_binary64 (r * Z.of_nat n) / random_unit).

(** The same expression read with exact real arithmetic: the reference
    the rounding is compared with. *)
Definition floor_exact (r : Z) (n : nat) : nat :=
  Z.to_nat (r * Z.of_nat n / random_unit).

(** The draw that makes [Math.floor(Math.random() * n)] return [i]: the
    least [r] with [r * n >= i * random_unit]. *)
Definition draw_for (i n : nat) : Z :=
  (Z.of_nat i * random_unit + Z.of_nat n - 1) / Z.of_nat n.

(** A concrete generator: a finite list of draws, reduced into range,
    then zeros. *)
#[export] Program Instance list_source (l : list Z) : RandomSource := {|
  draw i := default 0 (l !! i) mod random_unit
|}.
Next Obligation. intros. apply Z.mod_pos_bound. reflexivity. Qed.

(** A concrete generator spreading its draws over [[0,1)]: the Weyl
    sequence of the golden ratio, [draw i = frac((i + 1) * 0.618...)]. *)
#[export] Program Instance weyl_source : RandomSource := {|
  draw i := (Z.of_nat (S i) * 5566755733604577) mod random_unit
|}.
Next Obligation. intros. apply Z.mod_pos_bound. reflexivity. Qed.

Lemma random_unit_pos : 0 < random_unit.
Proof. reflexivity. Qed.

#[export] Hint Resolve random_unit_pos draw_range : emotify.

(** ** The rounded product *)

(** [round_binary64] keeps [x], or rounds it at the bit [2^e] of an [x]
    of [53 + e] bits to the multiple of [2^e] below, or to the one above
    from half-way up. *)
Lemma round_binary64_cases x :
  0 <= x ->
  round_binary64 x = x \/
  exists e q rm, 0 <= e /\ 2 ^ e * 2 ^ 52 <= x < 2 ^ e * 2 ^ 53 /\
    x = 2 ^ e * q + rm /\ 0 <= rm < 2 ^ e /\
    (round_binary64 x = 2 ^ e * q \/
     (round_binary64 x = 2 ^ e * q + 2 ^ e /\ 2 ^ e <= 2 * rm)).
Proof.
  intros Hx. unfold round_binary64.
  destruct (Z.ltb_spec x (2 ^ 53)) as [Hs | Hl]; [by left | right].
  assert (Hlog : 53 <= Z.log2 x).
  { rewrite <- (Z.log2_pow2 53) by lia. by apply Z.log2_le_mono. }
  destruct (Z.log2_spec x) as [Hlo Hhi]; [lia |].
  set (e := Z.log2 x - 52).
  assert (He : 2 ^ e * 2 ^ 52 = 2 ^ Z.log2 x) by (rewrite <- Z.pow_add_r by lia; f_equal; lia).
  assert (He' : 2 ^ e * 2 ^ 53 = 2 ^ Z.succ (Z.log2 x))
    by (rewrite <- Z.pow_add_r by lia; f_equal; lia).
  assert (HE : 0 < 2 ^ e) by (apply Z.pow_pos_nonneg; lia).
  exists e, (x / 2 ^ e), (x mod 2 ^ e).
  split; [lia |]. split; [lia |]. split; [apply Z.div_mod; lia |].
  split; [apply Z.mod_pos_bound; lia |].
  unfold round_half_even. cbv zeta.
  destruct (Z.ltb_spec (2 * (x mod 2 ^ e)) (2 ^ e)); [left; ring |].
  destruct (Z.ltb_spec (2 ^ e) (2 * (x mod 2 ^ e))); [right; split; [ring | lia] |].
  destruct (Z.even (x / 2 ^ e)); [left; ring | right; split; [ring | lia]].
Qed.

(** The exponent of an [x] below [2^(k + 53)] is at most [k]. *)
Lemma round_exponent_le e k :
  0 <= e -> 0 <= k -> 2 ^ e * 2 ^ 52 < 2 ^ k * 2 ^ 53 -> e <= k.
Proof.
  intros He Hk Hlt. destruct (Z.le_gt_cases e k) as [| Hgt]; [done | exfalso].
  assert (2 ^ (k + 1) <= 2 ^ e) by (apply Z.pow_le_mono_r; lia).
  rewrite Z.pow_add_r in * by lia. nia.
Qed.

(** The rounded value is within half a unit [2^k] of [x] when [x] is
    below [2^(k + 53)]. *)
Lemma round_binary64_close x k :
  0 <= x -> 0 <= k -> x < 2 ^ k * 2 ^ 53 ->
  0 <= round_binary64 x /\ 2 * round_binary64 x <= 2 * x + 2 ^ k.
Proof.
  intros Hx Hk Hb. assert (0 < 2 ^ k) by (apply Z.pow_pos_nonneg; lia).
  destruct (round_binary64_cases x Hx) as [-> | (e & q & rm & He & Hr & -> & Hrm & Hc)]; [lia |].
  pose proof (round_exponent_le e k He Hk ltac:(lia)).
  assert (2 ^ e <= 2 ^ k) by (apply Z.pow_le_mono_r; lia).
  destruct Hc as [-> | [-> Hup]]; nia.
Qed.

(** Rounding never goes below a multiple of [2^53] that [x] reaches,
    for [x < 2^106]. *)
Lemma round_binary64_above x j :
  0 <= j -> j * random_unit <= x < 2 ^ 53 * 2 ^ 53 -> j * random_unit <= round_binary64 x.
Proof.
  intros Hj Hx. destruct (round_binary64_cases x ltac:(unfold random_unit in *; lia))
    as [-> | (e & q & rm & He & Hr & Hq & Hrm & Hc)]; [lia |].
  pose proof (round_exponent_le e 53 He ltac:(lia) ltac:(lia)).
  assert (HU : random_unit = 2 ^ e * 2 ^ (53 - e))
    by (unfold random_unit; rewrite <- Z.pow_add_r by lia; f_equal; lia).
  assert (0 < 2 ^ e) by (apply Z.pow_pos_nonneg; lia).
  assert (0 < 2 ^ (53 - e)) by (apply Z.pow_pos_nonneg; lia).
  assert (Hq' : j * 2 ^ (53 - e) <= q) by nia.
  destruct Hc as [-> | [-> _]]; nia.
Qed.

(** Below [n * 2^53] rounding moves [x] up by less than [n]: the unit of
    rounding is below [2 n]. *)
Lemma round_binary64_within x n :
  0 <= x < Z.of_nat n * random_unit ->
  0 <= round_binary64 x /\ 2 * round_binary64 x < 2 * x + 2 * Z.of_nat n.
Proof.
  intros Hx. destruct (round_binary64_cases x ltac:(lia))
    as [-> | (e & q & rm & He & Hb & Hq & Hrm & Hc)]; [unfold random_unit in *; lia |].
  set (E := 2 ^ e) in *. set (P := E * q) in *. unfold random_unit in *.
  destruct Hc as [-> | [-> Hup]]; lia.
Qed.

(** ** [Math.floor(Math.random() * n)] *)

(** The scaled value is below [n] when the draw is below one, for every
    [n]: rounding up reaches less than [n] above the exact product,
    which stays [n] below [n * 2^53]. *)
Lemma floor_scaled_lt_nat r n :
  0 <= r < random_unit -> (0 < n)%nat -> (floor_scaled r n < n)%nat.
Proof.
  intros Hr Hn. unfold floor_scaled. set (x := r * Z.of_nat n).
  assert (Hx : 0 <= x <= Z.of_nat n * random_unit - Z.of_nat n) by (subst x; nia).
  destruct (round_binary64_within x n) as [HR0 HR]; [lia |].
  assert (round_binary64 x / random_unit < Z.of_nat n)
    by (apply Z.div_lt_upper_bound; [reflexivity | lia]).
  pose proof (Z.div_pos (round_binary64 x) random_unit HR0 ltac:(reflexivity)). lia.
Qed.

Lemma floor_scaled_zero r : floor_scaled r 0 = 0%nat.
Proof. unfold floor_scaled. by rewrite Z.mul_0_r. Qed.

Lemma draw_for_range i n :
  (i < n)%nat -> Z.of_nat n <= random_unit -> 0 <= draw_for i n < random_unit.
Proof.
  intros Hi Hn. unfold draw_for. pose proof random_unit_pos. split.
  - apply Z.div_pos; nia.
  - apply Z.div_lt_upper_bound; [lia |].
    assert (Z.of_nat i + 1 <= Z.of_nat n) by lia. nia.
Qed.

(** The exact product of [draw_for i n] lies in [[i * 2^53, i * 2^53 + n)]. *)
Lemma draw_for_scaled i n :
  (0 < n)%nat ->
  Z.of_nat i * random_unit <= draw_for i n * Z.of_nat n < Z.of_nat i * random_unit + Z.of_nat n.
Proof.
  intros Hi. unfold draw_for.
  set (N := Z.of_nat n). set (I := Z.of_nat i). assert (0 < N) by lia.
  pose proof (Z.div_mod (I * random_unit + N - 1) N ltac:(lia)) as Hdm.
  pose proof (Z.mod_pos_bound (I * random_unit + N - 1) N ltac:(lia)) as Hmb.
  set (q := (I * random_unit + N - 1) / N) in *.
  set (m := (I * random_unit + N - 1) mod N) in *. nia.
Qed.

(** For [n <= 2^52], [draw_for i n] scales to [i] also after rounding. *)
Lemma floor_scaled_draw_for i n :
  (i < n)%nat -> Z.of_nat n * 2 <= random_unit -> floor_scaled (draw_for i n) n = i.
Proof.
  intros Hi Hn. pose proof (draw_for_scaled i n ltac:(lia)) as Hb. unfold floor_scaled.
  set (x := draw_for i n * Z.of_nat n) in *.
  assert (Hbig : x < 2 ^ 52 * 2 ^ 53) by (unfold random_unit in *; nia).
  destruct (round_binary64_close x 52) as [_ Hc]; [unfold random_unit in *; lia | lia | done |].
  pose proof (round_binary64_above x (Z.of_nat i) ltac:(lia) ltac:(unfold random_unit in *; nia)).
  assert (round_binary64 x / random_unit = Z.of_nat i); [| lia].
  symmetry. apply Z.div_unique with (r := round_binary64 x - Z.of_nat i * random_unit);
    [left; unfold random_unit in *; lia | lia].
Qed.

(** Compared with exact arithmetic, rounding moves the index by at most
    one, upwards, for [n <= 2^53]. *)
Lemma floor_scaled_exact_le r n :
  0 <= r < random_unit -> Z.of_nat n <= random_unit ->
  (floor_exact r n <= floor_scaled r n <= floor_exact r n + 1)%nat.
Proof.
  intros Hr Hn. unfold floor_scaled, floor_exact. set (x := r * Z.of_nat n).
  assert (Hx : 0 <= x < 2 ^ 53 * 2 ^ 53) by (unfold random_unit in *; subst x; nia).
  set (k := x / random_unit).
  pose proof (Z.div_mod x random_unit ltac:(discriminate)) as Hdm.
  pose proof (Z.mod_pos_bound x random_unit random_unit_pos) as Hmb. fold k in Hdm.
  assert (0 <= k) by (apply Z.div_pos; [lia | reflexivity]).
  pose proof (round_binary64_above x k ltac:(lia) ltac:(unfold random_unit in *; nia)).
  destruct (round_binary64_close x 53) as [_ Hc]; [lia | lia | lia |].
  assert (k <= round_binary64 x / random_unit)
    by (apply Z.div_le_lower_bound; [reflexivity | lia]).
  assert (round_binary64 x / random_unit < k + 2)
    by (apply Z.div_lt_upper_bound; [reflexivity | unfold random_unit in *; lia]).
  lia.
Qed.

(** ** Which draws give which index *)

(** [draw_for i n] is the least draw whose exact product reaches [i]. *)
Lemma draw_for_le_iff i n r :
  (0 < n)%nat -> draw_for i n <= r <-> Z.of_nat i * random_unit <= r * Z.of_nat n.
Proof.
  intros Hn. pose proof (draw_for_scaled i n Hn). split; intros Hr; [nia |].
  destruct (Z.le_gt_cases (draw_for i n) r) as [| Hlt]; [done | exfalso].
  assert (r * Z.of_nat n <= draw_for i n * Z.of_nat n - Z.of_nat n) by nia. lia.
Qed.

Lemma floor_exact_ge_iff i n r :
  0 <= r -> (0 < n)%nat -> (i <= floor_exact r n)%nat <-> draw_for i n <= r.
Proof.
  intros Hr Hn. rewrite draw_for_le_iff by done. unfold floor_exact.
  pose proof (Z.div_pos (r * Z.of_nat n) random_unit ltac:(nia) random_unit_pos).
  split.
  - intros Hi. pose proof (Z.mul_div_le (r * Z.of_nat n) random_unit random_unit_pos).
    set (z := r * Z.of_nat n / random_unit) in *.
    clearbody z. apply Nat2Z.inj_le in Hi. rewrite Z2Nat.id in Hi by done. pose proof random_unit_pos. nia.
  - intros Hi. assert (Z.of_nat i <= r * Z.of_nat n / random_unit)
      by (apply Z.div_le_lower_bound; [apply random_unit_pos | lia]).
    set (z := r * Z.of_nat n / random_unit) in *. clearbody z. lia.
Qed.

(** Two draws below [draw_for i n], rounding cannot reach [i]. *)
Lemma floor_scaled_below i n r :
  0 <= r -> (0 < n)%nat -> (i <= n)%nat -> r + 2 <= draw_for i n ->
  (floor_scaled r n < i)%nat.
Proof.
  intros Hr Hn Hi Hd. pose proof (draw_for_scaled i n Hn). unfold floor_scaled.
  set (x := r * Z.of_nat n).
  assert (Hx : 0 <= x < Z.of_nat i * random_unit - Z.of_nat n) by (subst x; nia).
  destruct (round_binary64_within x n) as [HR0 HR]; [unfold random_unit in *; nia |].
  assert (round_binary64 x / random_unit < Z.of_nat i)
    by (apply Z.div_lt_upper_bound; [reflexivity | lia]).
  pose proof (Z.div_pos (round_binary64 x) random_unit HR0 ltac:(reflexivity)). lia.
Qed.

(** The draws giving an index of at least [i] are those from a
    threshold [lo], which is [draw_for i n] or the draw before it (when
    rounding carries that one up to [i]). *)
Lemma floor_scaled_threshold i n :
  (0 < n)%nat -> (i <= n)%nat -> Z.of_nat n <= random_unit ->
  exists lo, draw_for i n - 1 <= lo <= draw_for i n /\
    forall r, 0 <= r < random_unit -> ((i <= floor_scaled r n)%nat <-> lo <= r).
Proof.
  intros Hn Hi HnU.
  assert (Hge : forall r, 0 <= r < random_unit -> draw_for i n <= r -> (i <= floor_scaled r n)%nat).
  { intros r Hr Hd. apply floor_exact_ge_iff in Hd; [| lia | done].
    pose proof (floor_scaled_exact_le r n Hr HnU). lia. }
  destruct (decide (0 <= draw_for i n - 1 /\ (i <= floor_scaled (draw_for i n - 1) n)%nat))
    as [[Hd Hup] | Hno].
  - exists (draw_for i n - 1). split; [lia |]. intros r Hr. split.
    + intros Hf. destruct (Z.le_gt_cases (draw_for i n - 1) r); [done | exfalso].
      pose proof (floor_scaled_below i n r ltac:(lia) Hn Hi ltac:(lia)). lia.
    + intros Hlo. destruct (decide (r = draw_for i n - 1)) as [-> | Hne]; [done |].
      apply Hge; lia.
  - exists (draw_for i n). split; [lia |]. intros r Hr. split; [| by apply Hge].
    intros Hf. destruct (Z.le_gt_cases (draw_for i n) r); [done | exfalso].
    destruct (decide (r = draw_for i n - 1)) as [-> | Hne]; [apply Hno; split; [lia | done] |].
    pose proof (floor_scaled_below i n r ltac:(lia) Hn Hi ltac:(lia)). lia.
Qed.

(** A draw of [list_source] that is in range is the listed value. *)
Lemma list_source_draw ds i r :
  ds !! i = Some r -> 0 <= r < random_unit -> @draw (list_source ds) i = r.
Proof. intros Hi Hr. simpl. rewrite Hi. by apply Z.mod_small. Qed.

(** ** Properties of [Math.floor(Math.random() * n)] *)

(** (C15) For a non-empty range, [Math.floor(Math.random() * n)] is a
    valid index [0 <= i < n]: the arrays indexed with it (the quote pool,
    the song list) are never read out of range. *)
Theorem floor_scaled_in_range (r : Z) (n : nat) :
  0 <= r < random_unit -> (0 < n)%nat -> (floor_scaled r n < n)%nat.
Proof. apply floor_scaled_lt_nat. Qed.

(** Witness of C15: the largest draw, scaled to 20 songs. *)
Lemma floor_scaled_in_range_witness :
  (0 <= random_unit - 1 < random_unit /\ (0 < 20)%nat) /\
  (floor_scaled (random_unit - 1) 20 < 20)%nat.
Proof.
  split; [split; [unfold random_unit; lia | lia] |].
  apply floor_scaled_in_range; [unfold random_unit; lia | lia].
Defined.

(** The draw [draw_for i n] is in range and scales to [i]. *)
Lemma floor_scaled_onto (i n : nat) :
  (i < n)%nat -> Z.of_nat n * 2 <= random_unit ->
  exists r, 0 <= r < random_unit /\ floor_scaled r n = i.
Proof.
  intros Hi Hn. exists (draw_for i n).
  split; [apply draw_for_range; lia | by apply floor_scaled_draw_for].
Qed.

(** (C16) Every index is reachable: for [i < n <= 2^52] there is a draw
    for which [Math.floor(Math.random() * n)], with the product rounded
    to a double, is [i].  Together with C15, the image of a draw is
    exactly [[0, n)]. *)
Theorem floor_scaled_surjective (i n : nat) :
  (i < n)%nat -> Z.of_nat n * 2 <= random_unit ->
  exists r, 0 <= r < random_unit /\ floor_scaled r n = i.
Proof. exact (floor_scaled_onto i n). Qed.

(** Witness of C16: index 2 of 3. *)
Lemma floor_scaled_surjective_witness :
  ((2 < 3)%nat /\ Z.of_nat 3 * 2 <= random_unit) /\
  exists r, 0 <= r < random_unit /\ floor_scaled r 3 = 2%nat.
Proof.
  split; [split; [lia | unfold random_unit; lia] |].
  apply floor_scaled_surjective; [lia | unfold random_unit; lia].
Defined.

(** (C31) The rounding of the product to a double against exact
    arithmetic: for [n <= 2^53] the index [Math.floor(Math.random() * n)]
    is the exact floor or one more, and one more does happen: for three
    items the draw [(2^54 - 1) / 3] gives index 2 where the exact
    product gives 1, so the indices are not exactly equally likely. *)
Theorem floor_scaled_rounding (r : Z) (n : nat) :
  0 <= r < random_unit -> Z.of_nat n <= random_unit ->
  (floor_exact r n <= floor_scaled r n <= floor_exact r n + 1)%nat /\
  exists r', 0 <= r' < random_unit /\ floor_scaled r' 3 = 2%nat /\ floor_exact r' 3 = 1%nat.
Proof.
  intros Hr Hn. split; [by apply floor_scaled_exact_le |].
  exists 6004799503160661. split; [unfold random_unit; lia |]. split; vm_compute; reflexivity.
Qed.

(** Witness of C31: the largest draw, scaled to 20 songs. *)
Lemma floor_scaled_rounding_witness :
  (floor_exact (random_unit - 1) 20 <= floor_scaled (random_unit - 1) 20 <=
   floor_exact (random_unit - 1) 20 + 1)%nat /\
  exists r', 0 <= r' < random_unit /\ floor_scaled r' 3 = 2%nat /\ floor_exact r' 3 = 1%nat.
Proof. apply floor_scaled_rounding; unfold random_unit; lia. Defined.

(** (C34) The distribution of [Math.floor(Math.random() * n)] over the
    [2^53] draws, with the rounded product: for [n <= 2^53] the draws
    giving index [i] form one interval [[lo, hi)], and its length is
    [2^53 / n] up to two: every index is (almost exactly) equally
    likely under a uniform [Math.random()]. *)
Theorem floor_scaled_preimage (n i : nat) :
  (i < n)%nat -> Z.of_nat n <= random_unit ->
  exists lo hi, (forall r, 0 <= r < random_unit -> (floor_scaled r n = i <-> lo <= r < hi)) /\
    random_unit - 2 * Z.of_nat n < Z.of_nat n * (hi - lo) < random_unit + 2 * Z.of_nat n.
Proof.
  intros Hi Hn.
  destruct (floor_scaled_threshold i n) as [lo [Hlo Hr]]; [lia | lia | done |].
  destruct (floor_scaled_threshold (S i) n) as [hi [Hhi Hr']]; [lia | lia | done |].
  exists lo, hi. split.
  - intros r Hr0. specialize (Hr r Hr0). specialize (Hr' r Hr0). split.
    + intros Heq. split; [apply Hr; lia |].
      destruct (Z.lt_ge_cases r hi) as [| Hge]; [done | exfalso].
      apply Hr' in Hge. lia.
    + intros [H1 H2]. assert (i <= floor_scaled r n)%nat by (apply Hr; lia).
      assert (~ (S i <= floor_scaled r n)%nat) by (intros Hs; apply Hr' in Hs; lia). lia.
  - pose proof (draw_for_scaled i n ltac:(lia)). pose proof (draw_for_scaled (S i) n ltac:(lia)).
    rewrite Nat2Z.inj_succ in *. nia.
Qed.

(** Witness of C34: index 1 of 3. *)
Lemma floor_scaled_preimage_witness :
  exists lo hi, (forall r, 0 <= r < random_unit -> (floor_scaled r 3 = 1%nat <-> lo <= r < hi)) /\
    random_unit - 2 * Z.of_nat 3 < Z.of_nat 3 * (hi - lo) < random_unit + 2 * Z.of_nat 3.
Proof. apply floor_scaled_preimage; [lia | unfold random_unit; lia]. Defined.
