(* ===== verification/MoodMapper.v ===== *)
(** * The mood mapper: quotes, background gradients and the announcement

    Models the [quotes] object (lines 20-56), [getBackgroundColor]
    (lines 69-88), [getRandomQuote] (lines 100-107), the message of
    [announceEmotion] (lines 110-114) and the list of mood buttons (lines
    219-227).  Moods are JavaScript strings, compared with [===]. *)

From S2P Require Import Prelude JsRandom.

Local Open Scope string_scope.
Local Open Scope emotify_scope.

(** The seven mood buttons, [{ emotion, emoji }] in source order. *)
Definition mood_buttons : list (string * string) :=
  [("Happy", "😀"); ("Sad", "😔"); ("Surprised", "😲"); ("Fearful", "😨");
   ("Angry", "😠"); ("Disgusted", "🤢"); ("Neutral", "😶")].

Definition moods : list string := map fst mood_buttons.

(** The entries of the [quotes] object literal, in source order. *)
Definition quotes_entries : list (string * list string) := [
  ("Happy", [
    "Happiness is not something ready-made. It comes from your own actions.";
    "The purpose of our lives is to be happy.";
    "Happiness is a direction, not a place."]);
  ("Sad", [
    "Tears come from the heart and not from the brain.";
    "Every man has his secret sorrows which the world knows not.";
    "Sadness is but a wall between two gardens."]);
  ("Surprised", [
    "Surprise is the greatest gift which life can grant us.";
    "The unexpected is what makes life interesting.";
    "Sometimes you have to take a leap of faith."]);
  ("Fearful", [
    "The only thing we have to fear is fear itself.";
    "Do one thing every day that scares you.";
    "Fear is only as deep as the mind allows."]);
  ("Angry", [
    "For every minute you are angry you lose sixty seconds of happiness.";
    "Anger is a fuel that can take you anywhere.";
    "Holding onto anger is like drinking poison and expecting the other person to die."]);
  ("Disgusted", [
    "Disgust is the feeling of a disconnected mind and body.";
    "Disgust is the mother of morality.";
    "To be disgusted is to be human."]);
  ("Neutral", [
    "Sometimes, the most productive thing you can do is relax.";
    "Keep calm and carry on.";
    "Life is not about waiting for the storm to pass but learning to dance in the rain."])
].

(** The [quotes] object: each mood key holds an array of quotes. *)
Definition quotes : gmap string (list string) := list_to_map quotes_entries.

(** The value of [quotes[mood]]: an own array, a member every object
    inherits from [Object.prototype] (a built-in method, whose [length]
    is its number of parameters, or, for [__proto__], [Object.prototype]
    itself), or [undefined]. *)
Inductive prop_value :=
  | OwnArray (arr : list string)
  | InheritedMethod (arity : nat)
  | PrototypeObject
  | Undefined.

(** The members of [Object.prototype] with the value [quotes[name]]
    finds for them. *)
Definition object_prototype_members : list (string * prop_value) :=
  [("constructor", InheritedMethod 1); ("__defineGetter__", InheritedMethod 2);
   ("__defineSetter__", InheritedMethod 2); ("hasOwnProperty", InheritedMethod 1);
   ("__lookupGetter__", InheritedMethod 1); ("__lookupSetter__", InheritedMethod 1);
   ("isPrototypeOf", InheritedMethod 1); ("propertyIsEnumerable", InheritedMethod 1);
   ("toString", InheritedMethod 0); ("valueOf", InheritedMethod 0);
   ("__proto__", PrototypeObject); ("toLocaleString", InheritedMethod 0)].

Definition object_prototype_keys : list string := object_prototype_members.*1.

(** [quotes[mood]] (line 101): an own property first, then the
    prototype chain. *)
Definition quotes_get (mood : string) : prop_value :=
  match quotes !! mood with
  | Some arr => OwnArray arr
  | None =>
      match list_find (fun kv => kv.1 = mood) object_prototype_members with
      | Some (_, (_, v)) => v
      | None => Undefined
      end
  end.

(** JavaScript truthiness of the value (line 102). *)
Definition js_truthy (v : prop_value) : bool :=
  match v with Undefined => false | _ => true end.

(** [quotesArray.length]: an array's length, a method's number of
    parameters; [Object.prototype] has no [length] ([undefined]). *)
Definition js_length (v : prop_value) : option nat :=
  match v with
  | OwnArray arr => Some (length arr)
  | InheritedMethod arity => Some arity
  | _ => None
  end.

(** [Math.floor(Math.random() * quotesArray.length)] (line 103): an
    [undefined] length makes the product and the index [NaN] ([None]). *)
Definition random_index (r : Z) (len : option nat) : option nat :=
  option_map (floor_scaled r) len.

(** [quotesArray[randomIndex]] (line 104): only an array has elements at
    number keys; a method and [Object.prototype] have no property named
    by a number or by ["NaN"], so the read is [undefined]. *)
Definition js_read (v : prop_value) (i : option nat) : option string :=
  match v, i with
  | OwnArray arr, Some k => arr !! k
  | _, _ => None
  end.

(** The number of [Math.random()] calls of [getRandomQuote(mood)]: one
    when [quotesArray] is truthy. *)
Definition quote_draws (mood : string) : nat :=
  if js_truthy (quotes_get mood) then 1 else 0.

(** [getRandomQuote(mood)] (lines 100-107) with the draw [r] of
    [Math.random()]; [None] is [undefined]. *)
Definition getRandomQuote (r : Z) (mood : string) : option string :=
  let quotesArray := quotes_get mood in
  if js_truthy quotesArray then
    js_read quotesArray (random_index r (js_length quotesArray))
  else Some "".

(** The [default:] branch of [getBackgroundColor]. *)
Definition default_gradient : string :=
  "linear-gradient(135deg, #000000 0%, #434343 100%)".

(** [getBackgroundColor(mood)]: the [switch] compares with [===]. *)
Definition getBackgroundColor (mood : string) : string :=
  if decide (mood = "Happy") then "linear-gradient(135deg, #fceabb 0%, #f8b500 100%)"
  else if decide (mood = "Sad") then "linear-gradient(135deg, #89f7fe 0%, #66a6ff 100%)"
  else if decide (mood = "Surprised") then "linear-gradient(135deg, #ffecd2 0%, #fcb69f 100%)"
  else if decide (mood = "Fearful") then "linear-gradient(135deg, #cbbacc 0%, #2580b3 100%)"
  else if decide (mood = "Angry") then "linear-gradient(135deg, #ff0844 0%, #ffb199 100%)"
  else if decide (mood = "Disgusted") then "linear-gradient(135deg, #76b852 0%, #8dc26f 100%)"
  else if decide (mood = "Neutral") then "linear-gradient(135deg, #e0eafc 0%, #cfdef3 100%)"
  else default_gradient.

(** The utterance of [announceEmotion(mood)]: [`Playing ${mood} songs.`]. *)
Definition announce_text (mood : string) : string :=
  "Playing " +s mood +s " songs.".

(** ** The table *)

Lemma quotes_entries_keys : quotes_entries.*1 = moods.
Proof. reflexivity. Qed.

Lemma quotes_entries_NoDup : NoDup quotes_entries.*1.
Proof. apply (bool_decide_unpack _). vm_compute. reflexivity. Qed.

Lemma quotes_lookup_Some mood pool :
  quotes !! mood = Some pool <-> (mood, pool) ∈ quotes_entries.
Proof. symmetry. apply elem_of_list_to_map, quotes_entries_NoDup. Qed.

Lemma quotes_pool_length mood pool :
  quotes !! mood = Some pool -> length pool = 3%nat.
Proof.
  rewrite quotes_lookup_Some. unfold quotes_entries.
  intros Hin. repeat (apply elem_of_cons in Hin as [Hin | Hin]; [by simplify_eq |]).
  by apply elem_of_nil in Hin.
Qed.

Lemma quotes_is_Some mood : is_Some (quotes !! mood) <-> mood ∈ moods.
Proof.
  rewrite <- quotes_entries_keys, list_elem_of_fmap. split.
  - intros [pool Hp]. apply quotes_lookup_Some in Hp. by exists (mood, pool).
  - intros [[k pool] [-> Hin]]. exists pool. by apply quotes_lookup_Some.
Qed.

Lemma quotes_get_own mood pool :
  quotes !! mood = Some pool -> quotes_get mood = OwnArray pool.
Proof. unfold quotes_get. by intros ->. Qed.

#[export] Hint Resolve quotes_pool_length quotes_get_own : emotify.

(** Each name of [object_prototype_keys] is not a mood of the table. *)
Lemma quotes_lookup_inherited mood :
  mood ∈ object_prototype_keys -> quotes !! mood = None.
Proof.
  intros Hin. unfold object_prototype_keys in Hin. simpl in Hin.
  repeat (apply elem_of_cons in Hin as [-> | Hin]; [reflexivity |]).
  by apply elem_of_nil in Hin.
Qed.

(** For an inherited name, [quotes[mood]] is a method or
    [Object.prototype]. *)
Lemma quotes_get_inherited mood :
  mood ∈ object_prototype_keys ->
  quotes_get mood = PrototypeObject \/ exists arity, quotes_get mood = InheritedMethod arity.
Proof.
  intros Hin. unfold object_prototype_keys in Hin. simpl in Hin.
  repeat (apply elem_of_cons in Hin as [-> | Hin];
    [vm_compute; first [left; reflexivity | right; eexists; reflexivity] |]).
  by apply elem_of_nil in Hin.
Qed.

(** Off the table and off [Object.prototype], [quotes[mood]] is
    [undefined]. *)
Lemma quotes_get_undefined mood :
  quotes !! mood = None -> mood ∉ object_prototype_keys -> quotes_get mood = Undefined.
Proof.
  intros Hq Hk. unfold quotes_get. rewrite Hq.
  destruct (list_find _ _) as [[i [k v]]|] eqn:Hf; [| done].
  apply list_find_Some in Hf as (Hl & Hk' & _). simpl in Hk'. subst k.
  exfalso. apply Hk. unfold object_prototype_keys.
  apply list_elem_of_fmap. exists (mood, v). split; [done | by eapply list_elem_of_lookup_2].
Qed.

(** The seven moods are non-empty and none is an inherited member. *)
Lemma moods_plain mood : mood ∈ moods -> mood <> "" /\ mood ∉ object_prototype_keys.
Proof.
  intros Hin. unfold moods in Hin. simpl in Hin.
  repeat (apply elem_of_cons in Hin as [-> | Hin];
    [split; [done | apply (bool_decide_unpack _); vm_compute; reflexivity] |]).
  by apply elem_of_nil in Hin.
Qed.

(** ** Properties of the mood mapper *)

(** What [getRandomQuote] returns for a mood that is not inherited. *)
Lemma getRandomQuote_pool (r : Z) (mood : string) :
  (0 <= r < random_unit)%Z -> mood ∉ object_prototype_keys ->
  exists q, getRandomQuote r mood = Some q /\
    match quotes !! mood with Some pool => q ∈ pool | None => q = "" end.
Proof.
  intros Hr Hk. destruct (quotes !! mood) as [pool|] eqn:Hq.
  - unfold getRandomQuote. rewrite (quotes_get_own _ _ Hq). cbn.
    apply quotes_pool_length in Hq as Hlen.
    destruct (lookup_lt_is_Some_2 pool (floor_scaled r (length pool)))
      as [q Hl]; [apply floor_scaled_lt_nat; lia |].
    exists q. split; [done | by eapply list_elem_of_lookup_2].
  - unfold getRandomQuote. rewrite quotes_get_undefined by done. by exists "".
Qed.

(** (C11) [getRandomQuote] on a draw in [[0,1)] and a mood that is not an
    inherited member name never returns [undefined]: for a mood of the
    table it returns a quote of that mood's pool, and for any other mood
    the empty string. *)
Theorem getRandomQuote_spec (r : Z) (mood : string) :
  (0 <= r < random_unit)%Z -> mood ∉ object_prototype_keys ->
  exists q, getRandomQuote r mood = Some q /\
    match quotes !! mood with Some pool => q ∈ pool | None => q = "" end.
Proof. exact (getRandomQuote_pool r mood). Qed.

(** Witness of C11: a draw near one for [Sad] picks its last quote. *)
Lemma getRandomQuote_spec_witness :
  ((0 <= random_unit - 1 < random_unit)%Z /\ "Sad" ∉ object_prototype_keys) /\
  exists q, getRandomQuote (random_unit - 1) "Sad" = Some q /\
    match quotes !! "Sad" with Some pool => q ∈ pool | None => q = "" end.
Proof.
  split; [split; [unfold random_unit; lia | apply (bool_decide_unpack _); vm_compute; reflexivity] |].
  apply getRandomQuote_spec; [unfold random_unit; lia |].
  apply (bool_decide_unpack _). vm_compute. reflexivity.
Defined.

(** (C17) Every quote of a mood's pool is shown for some draw: the index
    [Math.floor(Math.random() * quotesArray.length)] reaches each
    element. *)
Theorem getRandomQuote_reaches_pool (mood : string) (pool : list string) (q : string) :
  quotes !! mood = Some pool -> q ∈ pool ->
  exists r, (0 <= r < random_unit)%Z /\ getRandomQuote r mood = Some q.
Proof.
  intros Hq Hin. apply list_elem_of_lookup_1 in Hin as [i Hi].
  pose proof (lookup_lt_Some _ _ _ Hi) as Hlt.
  destruct (floor_scaled_onto i (length pool)) as [r [Hr Hf]];
    [done | rewrite (quotes_pool_length _ _ Hq); unfold random_unit; lia |].
  exists r. split; [done |]. unfold getRandomQuote. rewrite (quotes_get_own _ _ Hq). cbn.
  by rewrite Hf.
Qed.

(** Witness of C17: the third [Neutral] quote. *)
Lemma getRandomQuote_reaches_pool_witness :
  exists r, (0 <= r < random_unit)%Z /\
    getRandomQuote r "Neutral" = Some "Keep calm and carry on.".
Proof.
  eapply (getRandomQuote_reaches_pool "Neutral"); [reflexivity |].
  apply (bool_decide_unpack _). vm_compute. reflexivity.
Defined.

(** On a draw in [[0,1)], [getRandomQuote] returns [undefined] exactly
    for the inherited member names. *)
Lemma getRandomQuote_None_iff (r : Z) (mood : string) :
  (0 <= r < random_unit)%Z -> getRandomQuote r mood = None <-> mood ∈ object_prototype_keys.
Proof.
  intros Hr. split.
  - intros Hq. destruct (decide (mood ∈ object_prototype_keys)) as [| Hk]; [done |].
    destruct (getRandomQuote_pool r mood Hr Hk) as [q [Hq' _]]. congruence.
  - intros Hk. unfold getRandomQuote.
    destruct (quotes_get_inherited mood Hk) as [-> | [a ->]]; reflexivity.
Qed.

(** (C18) Divergence from the spec's contract "an unconfigured label gets
    the empty string": for a mood naming a member every object inherits
    (["toString"], ["constructor"], ["__proto__"], ...), [quotes[mood]]
    is a truthy method or [Object.prototype], so the function goes on to
    index it, and the read [quotesArray[randomIndex]] is [undefined]. *)
Theorem getRandomQuote_inherited_undefined (r : Z) (mood : string) :
  mood ∈ object_prototype_keys -> getRandomQuote r mood = None.
Proof.
  intros Hk. unfold getRandomQuote.
  destruct (quotes_get_inherited mood Hk) as [-> | [a ->]]; reflexivity.
Qed.

(** Witness of C18: ["toString"]. *)
Lemma getRandomQuote_inherited_undefined_witness :
  "toString" ∈ object_prototype_keys /\ getRandomQuote 0 "toString" = None.
Proof.
  assert (Hk : "toString" ∈ object_prototype_keys)
    by (apply (bool_decide_unpack _); vm_compute; reflexivity).
  split; [exact Hk | exact (getRandomQuote_inherited_undefined 0 _ Hk)].
Defined.

(** A string that is not one of the seven moods gets the default. *)
Lemma getBackgroundColor_other mood : mood ∉ moods -> getBackgroundColor mood = default_gradient.
Proof.
  intros Hn. unfold getBackgroundColor.
  repeat (case_decide; [subst; exfalso; apply Hn; unfold moods; simpl; set_solver |]).
  reflexivity.
Qed.

(** A mood's gradient is not the default one. *)
Lemma getBackgroundColor_mood mood : mood ∈ moods -> getBackgroundColor mood <> default_gradient.
Proof.
  intros Hin. unfold moods in Hin. simpl in Hin.
  repeat (apply elem_of_cons in Hin as [-> | Hin]; [vm_compute; discriminate |]).
  by apply elem_of_nil in Hin.
Qed.

(** (C19) [getBackgroundColor] tells the moods apart: the gradient of
    one of the seven moods is the gradient of no other string, so the
    page background identifies the mood shown. *)
Theorem getBackgroundColor_injective (mood mood' : string) :
  mood ∈ moods -> getBackgroundColor mood = getBackgroundColor mood' -> mood = mood'.
Proof.
  intros Hin Heq. destruct (decide (mood' ∈ moods)) as [Hin' | Hn'].
  - unfold moods in Hin, Hin'. simpl in Hin, Hin'.
    repeat (apply elem_of_cons in Hin as [-> | Hin]; [
      repeat (apply elem_of_cons in Hin' as [-> | Hin'];
        [first [reflexivity | vm_compute in Heq; discriminate] |]);
      by apply elem_of_nil in Hin' |]).
    by apply elem_of_nil in Hin.
  - rewrite (getBackgroundColor_other mood' Hn') in Heq. by destruct (getBackgroundColor_mood mood Hin).
Qed.

(** (C20) [getBackgroundColor] falls to its [default:] branch exactly on
    the strings that are not one of the seven moods. *)
Theorem getBackgroundColor_default_iff (mood : string) :
  getBackgroundColor mood = default_gradient <-> mood ∉ moods.
Proof.
  split; [intros H Hin; by apply (getBackgroundColor_mood mood Hin) | apply getBackgroundColor_other].
Qed.

(** Witness of C19: the [Fearful] gradient belongs to [Fearful] only. *)
Lemma getBackgroundColor_injective_witness :
  ("Fearful" ∈ moods /\ getBackgroundColor "Fearful" = getBackgroundColor "Fearful") /\
  "Fearful" = "Fearful".
Proof.
  assert (Hin : "Fearful" ∈ moods) by (apply (bool_decide_unpack _); vm_compute; reflexivity).
  split; [split; [exact Hin | reflexivity] |].
  exact (getBackgroundColor_injective "Fearful" "Fearful" Hin eq_refl).
Defined.

(** The session's proofs treat the mapper's results as values. *)
Arguments getBackgroundColor : simpl never.
Arguments getRandomQuote : simpl never.
Arguments announce_text : simpl never.
