(* ===== verification/Selector.v ===== *)
(** * The song selector: the body of the Shazam response callback

    Models lines 177-198 of [MainComponen.js]: when the search returns a
    non-empty [songs] array, the callback draws
    [randomCount = Math.floor(Math.random() * 3) + 3] and loops
    [while (songIndexes.size < randomCount)], drawing
    [randomIndex = Math.floor(Math.random() * songs.length)] and pushing
    [songs[randomIndex]] when the index is new to the [Set].

    [loop_body] is one iteration, [select_loop] the loop with fuel (one
    unit per iteration; [None] means the loop is still running when the
    fuel is spent), and [pickSongs] the whole [if (songs.length > 0)]
    branch.  The reference [drawn_indices] lists the indices the draws
    produce; the loop is proved to return the first [randomCount]
    distinct ones, to run forever on fewer songs than [randomCount], and
    (with [draws_for]) to be able to return every selection of distinct
    indices the spec allows. *)

From S2P Require Import Prelude JsRandom.

Section Selector.
Context `{RS : RandomSource}.
Context {Song : Type}.

(** The loop's variables: the [Set] [songIndexes] (its elements in
    insertion order), the array [randomSelectedSongs] ([None] is an
    [undefined] read out of range), and the cursor of [Math.random()]. *)
Record LoopState := mkLoop {
  songIndexes : list nat;
  randomSelectedSongs : list (option Song);
  cursor : nat
}.

(** [Math.floor(Math.random() * 3) + 3] (line 180). *)
Definition randomCount (r : Z) : nat := floor_scaled r 3 + 3.

(** One iteration of the [while] body (lines 185-189). *)
Definition loop_body (songs : list Song) (st : LoopState) : LoopState :=
  let randomIndex := floor_scaled (draw (cursor st)) (length songs) in
  if decide (randomIndex ∈ songIndexes st) then
    mkLoop (songIndexes st) (randomSelectedSongs st) (S (cursor st))
  else
    mkLoop (songIndexes st ++ [randomIndex])
           (randomSelectedSongs st ++ [songs !! randomIndex])
           (S (cursor st)).

(** [while (songIndexes.size < randomCount) { ... }] (lines 184-190),
    one unit of fuel per iteration. *)
Fixpoint select_loop (fuel : nat) (songs : list Song) (count : nat)
    (st : LoopState) : option LoopState :=
  if decide (length (songIndexes st) < count) then
    match fuel with
    | O => None
    | S fuel' => select_loop fuel' songs count (loop_body songs st)
    end
  else Some st.

(** The outcome of the callback's selection: the array handed to
    [setRandomSongs] with the cursor after it, the [else] branch
    ("No songs found!"), or a loop that has not finished. *)
Inductive pick_outcome :=
  | Picked (sel : list (option Song)) (cursor' : nat)
  | NoSongs
  | StillLooping.

(** The [if (songs.length > 0)] branch of the callback (lines 178-198),
    with [Math.random()] starting at draw [c]. *)
Definition pickSongs (fuel : nat) (songs : list Song) (c : nat) : pick_outcome :=
  if decide (0 < length songs) then
    match select_loop fuel songs (randomCount (draw c)) (mkLoop [] [] (S c)) with
    | Some st => Picked (randomSelectedSongs st) (cursor st)
    | None => StillLooping
    end
  else NoSongs.

(** ** The reference: the indices the draws produce *)

(** The indices of the draws [c], ..., [c + k - 1] for [n] songs. *)
Definition drawn_indices (n c k : nat) : list nat :=
  map (fun j => floor_scaled (draw (c + j)) n) (seq 0 k).

(** The songs at the given indices, as [songs[i]] reads them. *)
Definition songs_at (songs : list Song) (idx : list nat) : list (option Song) :=
  map (fun i => songs !! i) idx.

(** The loop invariant: after [k] iterations from cursor [c], the [Set]
    holds the distinct indices of the [k] draws, the array the songs at
    them, and the cursor has moved by [k]. *)
Definition loop_inv (songs : list Song) (c k : nat) (st : LoopState) : Prop :=
  songIndexes st = first_distinct (drawn_indices (length songs) c k) /\
  randomSelectedSongs st = songs_at songs (songIndexes st) /\
  cursor st = c + k.

Lemma drawn_indices_S n c k :
  drawn_indices n c (S k) = drawn_indices n c k ++ [floor_scaled (draw (c + k)) n].
Proof. unfold drawn_indices. by rewrite seq_S, map_app. Qed.

Lemma loop_inv_start songs c : loop_inv songs c 0 (mkLoop [] [] c).
Proof. repeat split. simpl. lia. Qed.

Lemma loop_body_inv songs c k st :
  loop_inv songs c k st -> loop_inv songs c (S k) (loop_body songs st).
Proof.
  intros (Hidx & Hsel & Hcur). unfold loop_inv, loop_body.
  rewrite drawn_indices_S, first_distinct_snoc, <- Hidx, Hcur.
  unfold dedup_step. case_decide; simpl; [repeat split; auto; lia |].
  rewrite Hsel. unfold songs_at. rewrite map_app. repeat split; lia.
Qed.

#[local] Hint Resolve loop_inv_start loop_body_inv : emotify.

Lemma first_distinct_drawn_S n c k :
  length (first_distinct (drawn_indices n c (S k))) <=
  S (length (first_distinct (drawn_indices n c k))).
Proof. rewrite drawn_indices_S, first_distinct_snoc. apply dedup_step_length. Qed.

Lemma first_distinct_drawn_prefix n c k k' :
  k <= k' ->
  first_distinct (drawn_indices n c k) `prefix_of` first_distinct (drawn_indices n c k').
Proof.
  intros Hle. unfold drawn_indices.
  replace k' with (k + (k' - k)) by lia.
  rewrite seq_app, map_app. apply first_distinct_prefix.
Qed.

Lemma drawn_indices_lt n c k i :
  0 < n -> i ∈ drawn_indices n c k -> i < n.
Proof.
  intros Hn Hi. unfold drawn_indices in Hi.
  apply list_elem_of_fmap in Hi as [j [-> _]].
  apply floor_scaled_lt_nat; [apply draw_range | done].
Qed.

Lemma drawn_distinct_bounded n c k :
  0 < n -> length (first_distinct (drawn_indices n c k)) <= n.
Proof.
  intros Hn. apply NoDup_bounded_length; [apply first_distinct_NoDup |].
  intros i Hi. rewrite elem_of_first_distinct in Hi. exact (drawn_indices_lt n c k i Hn Hi).
Qed.

(** The loop run from any state of the invariant: either it stops after
    [k' - k] more iterations, at the first [k'] whose draws give
    [count] distinct indices, or the fuel runs out and no prefix up to
    [k + fuel] gives [count] of them. *)
Lemma select_loop_run songs count fuel c k st :
  loop_inv songs c k st ->
  match select_loop fuel songs count st with
  | Some st' => exists k', k <= k' <= k + fuel /\ loop_inv songs c k' st' /\
      count <= length (songIndexes st') /\
      forall j, k <= j < k' ->
        length (first_distinct (drawn_indices (length songs) c j)) < count
  | None => forall j, k <= j <= k + fuel ->
        length (first_distinct (drawn_indices (length songs) c j)) < count
  end.
Proof.
  revert k st. induction fuel as [|f IH]; intros k st Hinv; simpl;
    case_decide as Hlt; rewrite (proj1 Hinv) in Hlt.
  - intros j Hj. by replace j with k by lia.
  - exists k. repeat split; [lia | lia | apply Hinv | apply Hinv | apply Hinv | |].
    + rewrite (proj1 Hinv). lia.
    + intros j Hj. lia.
  - specialize (IH (S k) _ (loop_body_inv _ _ _ _ Hinv)).
    destruct (select_loop f songs count (loop_body songs st)) as [st'|].
    + destruct IH as (k' & Hk' & Hinv' & Hc & Hmin).
      exists k'. split; [lia |]. split; [done |]. split; [done |].
      intros j Hj. destruct (decide (j = k)) as [->|]; [done | apply Hmin; lia].
    + intros j Hj. destruct (decide (j = k)) as [->|]; [done | apply IH; lia].
  - exists k. repeat split; [lia | lia | apply Hinv | apply Hinv | apply Hinv | |].
    + rewrite (proj1 Hinv). lia.
    + intros j Hj. lia.
Qed.

(** At the first prefix that reaches [count] distinct indices, it has
    exactly [count] of them: each draw adds at most one. *)
Lemma first_reach_exact n c count k' :
  count <= length (first_distinct (drawn_indices n c k')) ->
  (forall j, 0 <= j < k' -> length (first_distinct (drawn_indices n c j)) < count) ->
  length (first_distinct (drawn_indices n c k')) = count.
Proof.
  intros Hge Hmin. destruct k' as [|j]; [simpl in *; lia |].
  pose proof (first_distinct_drawn_S n c j). specialize (Hmin j). lia.
Qed.

(** The prefix of length [length l] of a list extending [l] is [l]. *)
Lemma prefix_take_length {A : Type} (l l' : list A) :
  l `prefix_of` l' -> take (length l) l' = l.
Proof. intros [t ->]. apply take_app_length. Qed.

(** The loop from the empty [Set], for every fuel. *)
Lemma select_loop_spec (fuel : nat) (songs : list Song) (count c : nat) :
  match select_loop fuel songs count (mkLoop [] [] c) with
  | Some st =>
      songIndexes st = take count (first_distinct (drawn_indices (length songs) c fuel)) /\
      length (songIndexes st) = count /\
      randomSelectedSongs st = songs_at songs (songIndexes st) /\
      songIndexes st = first_distinct (drawn_indices (length songs) c (cursor st - c)) /\
      cursor st - c <= fuel
  | None => length (first_distinct (drawn_indices (length songs) c fuel)) < count
  end.
Proof.
  pose proof (select_loop_run songs count fuel c 0 _ (loop_inv_start songs c)) as Hrun.
  destruct (select_loop fuel songs count (mkLoop [] [] c)) as [st|].
  - destruct Hrun as (k' & Hk' & (Hidx & Hsel & Hcur) & Hc & Hmin).
    rewrite Hidx in Hc |- *.
    pose proof (first_reach_exact _ _ _ _ Hc Hmin) as Hlen.
    rewrite <- Hlen at 1. rewrite prefix_take_length
      by (apply first_distinct_drawn_prefix; lia).
    rewrite Hcur, Nat.add_comm, Nat.add_sub. repeat split; [done | | lia].
    by rewrite <- Hidx.
  - apply Hrun. lia.
Qed.

(** (C1) Functional correctness of the selection loop, for every fuel:
    started with an empty [Set] at draw [c], the loop either returns
    the state whose [Set] is the first [count] distinct indices among
    the draws (exactly those of the draws it consumed, the cursor
    telling how many), with [randomSelectedSongs] the songs at these
    indices, or it is still running and the [fuel] draws give fewer
    than [count] distinct indices. *)
Theorem select_loop_correct (fuel : nat) (songs : list Song) (count c : nat) :
  match select_loop fuel songs count (mkLoop [] [] c) with
  | Some st =>
      songIndexes st = take count (first_distinct (drawn_indices (length songs) c fuel)) /\
      length (songIndexes st) = count /\
      randomSelectedSongs st = songs_at songs (songIndexes st) /\
      songIndexes st = first_distinct (drawn_indices (length songs) c (cursor st - c)) /\
      cursor st - c <= fuel
  | None => length (first_distinct (drawn_indices (length songs) c fuel)) < count
  end.
Proof. exact (select_loop_spec fuel songs count c). Qed.

(** Enough distinct draws make the loop return. *)
Lemma select_loop_finishes (fuel : nat) (songs : list Song) (count c : nat) :
  count <= length (first_distinct (drawn_indices (length songs) c fuel)) ->
  exists st, select_loop fuel songs count (mkLoop [] [] c) = Some st.
Proof.
  intros Hc. pose proof (select_loop_spec fuel songs count c) as Hcor.
  destruct (select_loop fuel songs count (mkLoop [] [] c)) as [st|]; [by exists st | lia].
Qed.

(** Fewer songs than [count] keep the loop running. *)
Lemma select_loop_stuck (fuel : nat) (songs : list Song) (count c : nat) :
  0 < length songs -> length songs < count ->
  select_loop fuel songs count (mkLoop [] [] c) = None.
Proof.
  intros Hn Hlt. pose proof (select_loop_spec fuel songs count c) as Hcor.
  destruct (select_loop fuel songs count (mkLoop [] [] c)) as [st|]; [| done].
  destruct Hcor as (_ & Hlen & _ & Hidx & _).
  pose proof (drawn_distinct_bounded (length songs) c (cursor st - c) Hn).
  rewrite <- Hidx in *. lia.
Qed.

(** (C5) The loop never ends when the search returned fewer songs than
    [count]: for every draw stream and every fuel it is still running,
    since the [Set] can hold at most [songs.length] indices. *)
Theorem select_loop_diverges (fuel : nat) (songs : list Song) (count c : nat) :
  0 < length songs -> length songs < count ->
  select_loop fuel songs count (mkLoop [] [] c) = None.
Proof. exact (select_loop_stuck fuel songs count c). Qed.

(** The spec's contract for the selector (section 4.2): [k] in {3,4,5},
    [min(k, |songs|)] tracks, read at distinct indices of [songs]. *)
Definition select_contract (songs : list Song) (k : nat) (out : list Song) : Prop :=
  3 <= k <= 5 /\ length out = Nat.min k (length songs) /\
  exists idx, NoDup idx /\ Forall2 (fun i s => songs !! i = Some s) idx out.

Lemma randomCount_bounds r : (0 <= r < random_unit)%Z -> 3 <= randomCount r <= 5.
Proof.
  intros Hr. unfold randomCount.
  pose proof (floor_scaled_lt_nat r 3 Hr ltac:(lia)). lia.
Qed.

Lemma songs_at_defined (songs : list Song) (idx : list nat) :
  (forall i, i ∈ idx -> i < length songs) ->
  exists out, songs_at songs idx = Some <$> out /\
    Forall2 (fun i s => songs !! i = Some s) idx out.
Proof.
  induction idx as [|i idx IH]; intros Hlt; [by exists [] |].
  destruct (lookup_lt_is_Some_2 songs i) as [x Hx]; [apply Hlt; set_solver |].
  destruct IH as [out [Hout Hf]]; [intros j Hj; apply Hlt; set_solver |].
  exists (x :: out). split; [| by constructor].
  unfold songs_at in *. cbn. by rewrite Hx, Hout.
Qed.

(** (C13) [randomCount] is 3, 4 or 5, and each of the three values is
    drawn for some [Math.random()] result. *)
Theorem randomCount_range (k : nat) :
  (forall r, (0 <= r < random_unit)%Z -> 3 <= randomCount r <= 5) /\
  (3 <= k <= 5 -> exists r, (0 <= r < random_unit)%Z /\ randomCount r = k).
Proof.
  split; [apply randomCount_bounds |].
  intros Hk. destruct (floor_scaled_onto (k - 3) 3) as [r [Hr Hf]];
    [lia | unfold random_unit; lia |].
  exists r. split; [done |]. unfold randomCount. lia.
Qed.

(** A finished selection meets the contract. *)
Lemma pickSongs_contract (fuel : nat) (songs : list Song) (c : nat)
    (sel : list (option Song)) (c' : nat) :
  pickSongs fuel songs c = Picked sel c' ->
  exists out, sel = Some <$> out /\ select_contract songs (randomCount (draw c)) out.
Proof.
  unfold pickSongs. case_decide as Hn; [| done].
  pose proof (select_loop_spec fuel songs (randomCount (draw c)) (S c)) as Hcor.
  destruct (select_loop _ _ _ _) as [st|]; intros Heq; [injection Heq as <- <- | done].
  destruct Hcor as (_ & Hlen & Hsel & Hidx & _).
  set (k := randomCount (draw c)) in *.
  assert (Hlt : forall i, i ∈ songIndexes st -> i < length songs).
  { intros i Hi. rewrite Hidx, elem_of_first_distinct in Hi.
    exact (drawn_indices_lt _ _ _ _ Hn Hi). }
  destruct (songs_at_defined songs (songIndexes st) Hlt) as [out [Hout Hf]].
  assert (Hnd : NoDup (songIndexes st)) by (rewrite Hidx; auto with emotify).
  pose proof (NoDup_bounded_length _ _ Hnd Hlt).
  exists out. rewrite Hsel, Hout. split; [done |].
  split; [apply randomCount_bounds, draw_range |].
  split; [| by exists (songIndexes st)].
  rewrite <- (Forall2_length _ _ _ Hf). lia.
Qed.

(** (C3) Refinement of the spec's contract: whenever the callback's
    selection finishes, the tracks it hands to [setRandomSongs] are all
    defined and satisfy [select_contract] for the drawn [randomCount]:
    3 to 5 tracks, read at distinct indices of the response. *)
Theorem pickSongs_refines (fuel : nat) (songs : list Song) (c : nat)
    (sel : list (option Song)) (c' : nat) :
  pickSongs fuel songs c = Picked sel c' ->
  exists out, sel = Some <$> out /\ select_contract songs (randomCount (draw c)) out.
Proof. exact (pickSongs_contract fuel songs c sel c'). Qed.

(** One or two tracks keep the callback looping. *)
Lemma pickSongs_stuck (fuel : nat) (songs : list Song) (c : nat) :
  1 <= length songs <= 2 -> pickSongs fuel songs c = StillLooping.
Proof.
  intros Hn. unfold pickSongs. case_decide; [| lia].
  pose proof (randomCount_bounds _ (draw_range c)).
  by rewrite select_loop_stuck by lia.
Qed.

(** (C2) The bug the spec's section 9 describes and the code still has:
    when the search returns one or two tracks, [randomCount >= 3] can
    never be reached and the callback loops forever, for every draw
    stream: the page freezes instead of showing the tracks. *)
Theorem pickSongs_hangs_on_few_results (fuel : nat) (songs : list Song) (c : nat) :
  1 <= length songs <= 2 -> pickSongs fuel songs c = StillLooping.
Proof. exact (pickSongs_stuck fuel songs c). Qed.

(** (C12) The selection finishes with the fuel of the draws it needs:
    when the [fuel] draws after the count draw give [randomCount]
    distinct indices, the callback hands a selection over. *)
Theorem pickSongs_terminates (fuel : nat) (songs : list Song) (c : nat) :
  0 < length songs ->
  randomCount (draw c) <= length (first_distinct (drawn_indices (length songs) (S c) fuel)) ->
  exists sel c', pickSongs fuel songs c = Picked sel c'.
Proof.
  intros Hn Hc. unfold pickSongs. case_decide; [| lia].
  destruct (select_loop_finishes fuel songs _ (S c) Hc) as [st ->]. eauto.
Qed.

(** A finished selection has exactly [randomCount] tracks, 3 to 5. *)
Lemma pickSongs_shape fuel songs c sel c' :
  pickSongs fuel songs c = Picked sel c' ->
  exists out, sel = Some <$> out /\ 3 <= length out <= 5.
Proof.
  intros Hp. destruct (pickSongs_contract fuel songs c sel c' Hp) as [out [-> Hc]].
  exists out. split; [done |].
  unfold pickSongs in Hp. case_decide; [| done].
  pose proof (select_loop_spec fuel songs (randomCount (draw c)) (S c)) as Hcor.
  destruct (select_loop _ _ _ _) as [st|]; [injection Hp as Hsel _ | done].
  destruct Hcor as (_ & Hlen & Hs & _).
  apply (f_equal length) in Hsel. rewrite Hs in Hsel. unfold songs_at in Hsel.
  rewrite length_map, length_fmap, Hlen in Hsel.
  pose proof (randomCount_bounds _ (draw_range c)). lia.
Qed.

(** [k] draws give at most [k] distinct indices. *)
Lemma drawn_distinct_le n c k : length (first_distinct (drawn_indices n c k)) <= k.
Proof.
  etrans; [apply first_distinct_length |]. unfold drawn_indices.
  by rewrite length_map, length_seq.
Qed.
End Selector.

Arguments LoopState : clear implicits.
Arguments pick_outcome : clear implicits.

#[export] Hint Resolve loop_inv_start loop_body_inv : emotify.

(** ** Completeness of the selection

    Every selection the spec's contract allows when the response has at
    least [k] tracks is made by the callback for some [Math.random()]
    stream: the draws [draws_for n idx] give the count [length idx] and
    then the indices [idx] one by one. *)

Definition draws_for (n : nat) (idx : list nat) : list Z :=
  draw_for (length idx - 3) 3 :: map (fun i => draw_for i n) idx.

Lemma draws_for_drawn n idx :
  Forall (fun i => i < n) idx -> (Z.of_nat n * 2 <= random_unit)%Z ->
  @drawn_indices (list_source (draws_for n idx)) n 1 (length idx) = idx.
Proof.
  intros Hlt Hn. apply list_eq. intros j. unfold drawn_indices.
  change (map ?g ?l) with (g <$> l). rewrite list_lookup_fmap.
  destruct (decide (j < length idx)) as [Hj|Hj].
  - rewrite lookup_seq_lt by done. cbn [fmap option_fmap option_map].
    destruct (lookup_lt_is_Some_2 idx j Hj) as [i Hi]. rewrite Hi. f_equal.
    pose proof (proj1 (Forall_lookup _ _) Hlt j i Hi) as Hin.
    rewrite (list_source_draw _ _ (draw_for i n)).
    + by apply floor_scaled_draw_for.
    + simpl. change (map ?g ?l) with (g <$> l). by rewrite list_lookup_fmap, Hi.
    + apply draw_for_range; [done | unfold random_unit in *; lia].
  - rewrite lookup_seq_ge by lia. symmetry. apply lookup_ge_None_2. lia.
Qed.

(** (C21) Completeness of the selection with respect to the spec's
    contract: for a response of [n <= 2^53] tracks and any 3 to 5
    distinct indices below [n], some [Math.random()] stream makes the
    callback select exactly the tracks at these indices, in this order,
    consuming the count draw and one draw per index. *)
Theorem pickSongs_complete {Song : Type} (songs : list Song) (idx : list nat) :
  NoDup idx -> 3 <= length idx <= 5 -> Forall (fun i => i < length songs) idx ->
  (Z.of_nat (length songs) * 2 <= random_unit)%Z ->
  exists ds, @pickSongs (list_source ds) Song (length idx) songs 0 =
             Picked (songs_at songs idx) (S (length idx)).
Proof.
  intros Hnd Hk Hlt Hn. exists (draws_for (length songs) idx).
  assert (Hpos : 0 < length songs).
  { destruct idx as [|i idx]; [simpl in Hk; lia |]. apply Forall_cons in Hlt. lia. }
  assert (Hc : randomCount (@draw (list_source (draws_for (length songs) idx)) 0) = length idx).
  { unfold randomCount. rewrite (list_source_draw _ 0 (draw_for (length idx - 3) 3));
      [| done | apply draw_for_range; [lia | unfold random_unit; lia]].
    rewrite floor_scaled_draw_for; [lia | lia | unfold random_unit; lia]. }
  pose proof (draws_for_drawn (length songs) idx Hlt Hn) as Hd.
  unfold pickSongs. rewrite decide_True by done. rewrite Hc.
  pose proof (@select_loop_spec (list_source (draws_for (length songs) idx)) Song (length idx) songs (length idx) 1) as Hcor.
  destruct (select_loop _ _ _ _) as [st|].
  - destruct Hcor as (Hidx & Hlen & Hsel & Hidx' & Hcur).
    rewrite Hd, first_distinct_NoDup_id, take_ge in Hidx by (done || lia).
    pose proof (drawn_distinct_le (RS := list_source (draws_for (length songs) idx))
                  (length songs) 1 (cursor st - 1)).
    rewrite <- Hidx' in *. rewrite Hsel, Hidx. f_equal. lia.
  - rewrite Hd, first_distinct_NoDup_id in Hcor by done. lia.
Qed.

(** ** Concrete runs *)

(** Draws for a six-track response: count 4, then indices 0, 0, 5, 2, 3. *)
Definition demo_draws : list Z :=
  [draw_for 1 3; draw_for 0 6; draw_for 0 6; draw_for 5 6; draw_for 2 6; draw_for 3 6].

Definition demo_songs : list nat := [10; 20; 30; 40; 50; 60].

Example pickSongs_demo :
  @pickSongs (list_source demo_draws) nat 10 demo_songs 0 =
  Picked [Some 10; Some 60; Some 30; Some 40] 6.
Proof. vm_compute. reflexivity. Qed.

(** Witness of C5: two tracks, three wanted. *)
Lemma select_loop_diverges_witness :
  @select_loop (list_source demo_draws) nat 100 [10; 20] 3 (mkLoop [] [] 0) = None.
Proof. apply (@select_loop_diverges (list_source demo_draws) nat); simpl; lia. Defined.

(** Witness of C13: the count 4. *)
Lemma randomCount_range_witness :
  exists r, (0 <= r < random_unit)%Z /\ randomCount r = 4.
Proof. apply (proj2 (randomCount_range 4)). lia. Defined.

(** Witness of C3: the demo run satisfies the contract. *)
Lemma pickSongs_refines_witness :
  exists out, [Some 10; Some 60; Some 30; Some 40] = Some <$> out /\
    select_contract demo_songs (randomCount (@draw (list_source demo_draws) 0)) out.
Proof.
  apply (@pickSongs_refines (list_source demo_draws) nat 10 demo_songs 0 _ 6).
  vm_compute. reflexivity.
Defined.

(** Witness of C2: a response of two tracks. *)
Lemma pickSongs_hangs_on_few_results_witness :
  @pickSongs (list_source demo_draws) nat 1000 [10; 20] 0 = StillLooping.
Proof. apply (@pickSongs_hangs_on_few_results (list_source demo_draws) nat). simpl. lia. Defined.

(** Witness of C12: the demo response with five draws of fuel. *)
Lemma pickSongs_terminates_witness :
  exists sel c', @pickSongs (list_source demo_draws) nat 5 demo_songs 0 = Picked sel c'.
Proof.
  apply (@pickSongs_terminates (list_source demo_draws) nat); [simpl; lia |].
  vm_compute. lia.
Defined.

(** Witness of C21: the tracks at indices 5, 2, 0 of the six-track
    response. *)
Lemma pickSongs_complete_witness :
  exists ds, @pickSongs (list_source ds) nat 3 demo_songs 0 =
             Picked (songs_at demo_songs [5; 2; 0]) 4.
Proof.
  apply (pickSongs_complete demo_songs [5; 2; 0]);
    [apply (bool_decide_unpack _); vm_compute; reflexivity | simpl; lia
    | apply (bool_decide_unpack _); vm_compute; reflexivity | unfold random_unit; simpl; lia].
Defined.
