(* ===== verification/Session.v ===== *)
(** * The session controller: [MainComponent]'s state, events and effects

    Models the component state (lines 59-66), the effects on [emotion]
    (lines 91-97 and 145-147) and on [location] (lines 116-143),
    [recommendSongs] (lines 150-204), the mood buttons (lines 219-239),
    the webcam button and modal (lines 242-255) and the loader/grid
    condition of the view (lines 268-306).

    [State] holds the [useState] cells, the page background that the
    emotion effect writes into [document.body.style.background], the log
    of alerts, utterances and console errors, the cursor into the
    [Math.random()] stream, and the asynchronous operations in flight
    ([pending]: the model loading [Promise.all], the geolocation callback,
    the weather call, the search calls).  An [Event] is a user action or
    the completion of an operation in flight; [handle] runs its handler,
    then [commit], the re-render that runs the effects whose dependencies
    changed, in source order.  The handlers of the effects do not change
    [emotion] or [location] ([recommendSongs] sets [emotion] to its
    current value), so one commit pass reaches the fixed point React
    reaches.  [handle] returns [None] when the song selection loop is
    still running with the given fuel: the page is frozen.

    The sections: [Invariants] (the session invariant, C4), [Behaviour]
    (the loader and the searches of a click, the error path of a
    search), [Traces] (runs of event lists) and the concrete sessions
    with the witnesses.  Induction over reachable states, the quote cell, geolocation,
    the webcam detections and the other error paths are in
    [Lifecycle.v]; the rendered page in [Page.v]. *)

From S2P Require Import Prelude JsRandom MoodMapper Selector.

Local Open Scope string_scope.
Local Open Scope emotify_scope.

(** The [options] of the Shazam request (lines 159-172), headers apart. *)
Record SearchOptions := mkOptions {
  opt_url : string;
  opt_term : string;
  opt_locale : string;
  opt_offset : string;
  opt_limit : string
}.

Definition search_options (mood weather : string) : SearchOptions :=
  mkOptions "https://shazam.p.rapidapi.com/search" (mood +s " " +s weather)
            "en-US" "0" "20".
Arguments search_options : simpl never.

(** The location string of the geolocation callback (line 132):
    [position.coords.latitude + "," + position.coords.longitude].  The
    [+] converts each number with JavaScript's [Number::toString]; the
    event [GeoOk lat lon] carries the two printed numbers, so [lat] and
    [lon] range over those strings (digits, sign, point, exponent, never
    a comma). *)
Definition location_string (lat lon : string) : string := lat +s "," +s lon.
Arguments location_string : simpl never.

(** The asynchronous operations the component starts. *)
Inductive Pending :=
  | PModels                               (* Promise.all of loadFromUri *)
  | PGeo                                  (* geolocation.getCurrentPosition *)
  | PWeather (loc : string)               (* axios.get of weatherapi.com *)
  | PSearch (id : nat) (opts : SearchOptions).  (* axios.request(options) *)

(** What identifies an operation when its completion arrives. *)
Inductive PendingKey := KModels | KGeo | KWeather (loc : string) | KSearch (id : nat).

#[export] Instance PendingKey_eq_dec : EqDecision PendingKey.
Proof. solve_decision. Defined.

Definition key_of (p : Pending) : PendingKey :=
  match p with
  | PModels => KModels
  | PGeo => KGeo
  | PWeather loc => KWeather loc
  | PSearch id _ => KSearch id
  end.

(** Remove the first operation with key [k]. *)
Fixpoint remove_key (k : PendingKey) (l : list Pending) : list Pending :=
  match l with
  | [] => []
  | p :: l' => if decide (key_of p = k) then l' else p :: remove_key k l'
  end.

(** The side effects the page shows outside the component's tree. *)
Inductive Output :=
  | Alert (msg : string)      (* window.alert *)
  | Speak (msg : string)      (* speechSynthesis.speak, lang en-US *)
  | ConsoleError.             (* console.error(error) *)

(** JavaScript truthiness of a string cell ([undefined] and [""] are
    falsy). *)
Definition truthy (o : option string) : option string :=
  match o with Some s => if decide (s = "") then None else Some s | None => None end.

Section Session.
Context `{RS : RandomSource}.
Context {Song : Type}.

Record State := mkState {
  loader : bool;                          (* useState(false) *)
  randomSongs : list (option Song);       (* useState([]) *)
  webcamModal : bool;                     (* useState(false) *)
  emotion : option string;                (* useState() *)
  weather : option string;                (* useState() *)
  location : option string;               (* useState() *)
  modelsLoaded : bool;                    (* useState(false) *)
  currentQuote : option string;           (* useState("") *)
  background : option string;             (* document.body.style.background *)
  log : list Output;
  rng : nat;                              (* next draw of Math.random() *)
  pending : list Pending;
  next_req : nat                          (* identifies search requests *)
}.

(** One setter per cell, as [setX] writes it. *)
Definition set_loader b s := mkState b (randomSongs s) (webcamModal s) (emotion s) (weather s)
  (location s) (modelsLoaded s) (currentQuote s) (background s) (log s) (rng s) (pending s) (next_req s).
Definition set_randomSongs l s := mkState (loader s) l (webcamModal s) (emotion s) (weather s)
  (location s) (modelsLoaded s) (currentQuote s) (background s) (log s) (rng s) (pending s) (next_req s).
Definition set_webcamModal b s := mkState (loader s) (randomSongs s) b (emotion s) (weather s)
  (location s) (modelsLoaded s) (currentQuote s) (background s) (log s) (rng s) (pending s) (next_req s).
Definition set_emotion m s := mkState (loader s) (randomSongs s) (webcamModal s) (Some m) (weather s)
  (location s) (modelsLoaded s) (currentQuote s) (background s) (log s) (rng s) (pending s) (next_req s).
Definition set_weather w s := mkState (loader s) (randomSongs s) (webcamModal s) (emotion s) (Some w)
  (location s) (modelsLoaded s) (currentQuote s) (background s) (log s) (rng s) (pending s) (next_req s).
Definition set_location l s := mkState (loader s) (randomSongs s) (webcamModal s) (emotion s) (weather s)
  (Some l) (modelsLoaded s) (currentQuote s) (background s) (log s) (rng s) (pending s) (next_req s).
Definition set_modelsLoaded s := mkState (loader s) (randomSongs s) (webcamModal s) (emotion s) (weather s)
  (location s) true (currentQuote s) (background s) (log s) (rng s) (pending s) (next_req s).
(** The emotion effect's three writes: background, utterance, quote;
    [k] is the number of [Math.random()] calls the quote took. *)
Definition set_mood_view bg msg q k s := mkState (loader s) (randomSongs s) (webcamModal s) (emotion s)
  (weather s) (location s) (modelsLoaded s) q (Some bg) (log s ++ [Speak msg]) (rng s + k)
  (pending s) (next_req s).
Definition emit o s := mkState (loader s) (randomSongs s) (webcamModal s) (emotion s) (weather s)
  (location s) (modelsLoaded s) (currentQuote s) (background s) (log s ++ [o]) (rng s) (pending s) (next_req s).
Definition set_rng c s := mkState (loader s) (randomSongs s) (webcamModal s) (emotion s) (weather s)
  (location s) (modelsLoaded s) (currentQuote s) (background s) (log s) c (pending s) (next_req s).
Definition start p s := mkState (loader s) (randomSongs s) (webcamModal s) (emotion s) (weather s)
  (location s) (modelsLoaded s) (currentQuote s) (background s) (log s) (rng s) (pending s ++ [p]) (next_req s).
Definition finish k s := mkState (loader s) (randomSongs s) (webcamModal s) (emotion s) (weather s)
  (location s) (modelsLoaded s) (currentQuote s) (background s) (log s) (rng s) (remove_key k (pending s)) (next_req s).
Definition start_search opts s := mkState (loader s) (randomSongs s) (webcamModal s) (emotion s) (weather s)
  (location s) (modelsLoaded s) (currentQuote s) (background s) (log s) (rng s)
  (pending s ++ [PSearch (next_req s) opts]) (S (next_req s)).
End Session.

Arguments State : clear implicits.

Section Handlers.
Context `{RS : RandomSource}.
Context {Song : Type}.
Abbreviation State := (State Song).

(** [recommendSongs(mood)] (lines 150-204) up to the request: the
    [then]/[catch] callbacks run later, as [search_response]. *)
Definition recommendSongs (mood : string) (s : State) : State :=
  let s1 := set_randomSongs [] (set_loader true (set_emotion mood s)) in
  match truthy (weather s) with
  | None => emit (Alert "Detecting weather...") s1
  | Some w => start_search (search_options mood w) s1
  end.

(** The effect on [[emotion]] at lines 91-97; [getRandomQuote] takes a
    draw of [Math.random()] only when [quotes[mood]] is truthy. *)
Definition effect_emotion (s : State) : State :=
  match truthy (emotion s) with
  | Some m => set_mood_view (getBackgroundColor m) (announce_text m)
                (getRandomQuote (draw (rng s)) m) (quote_draws m) s
  | None => s
  end.

(** The effect on [[location]] at lines 116-143. *)
Definition effect_location (s : State) : State :=
  let s1 := if modelsLoaded s then s else start PModels s in
  match truthy (location s1) with
  | None => start PGeo s1
  | Some loc => start (PWeather loc) s1
  end.

(** The effect on [[emotion]] at lines 145-147. *)
Definition effect_recommend (s : State) : State :=
  match truthy (emotion s) with
  | Some m => recommendSongs m s
  | None => s
  end.

(** The re-render after a handler: the effects whose dependency changed
    between the previous render [prev] and [s], in source order. *)
Definition commit (prev s : State) : State :=
  let same_emotion := bool_decide (emotion prev = emotion s) in
  let same_location := bool_decide (location prev = location s) in
  let s1 := if same_emotion then s else effect_emotion s in
  let s2 := if same_location then s1 else effect_location s1 in
  if same_emotion then s2 else effect_recommend s2.

(** The first render: the [useState] initial values, then every effect
    runs once. *)
Definition initial_render : State :=
  mkState false [] false None None None false (Some "") None [] 0 [] 0.

Definition initial : State :=
  effect_recommend (effect_location (effect_emotion initial_render)).

(** The search callbacks (lines 176-203) for request [id]: [None] for
    [tracks] is a response without [data.tracks], whose [.hits] throws
    into the [catch]. *)
Definition search_response (fuel id : nat) (tracks : option (list Song))
    (s : State) : option State :=
  let s0 := finish (KSearch id) s in
  match tracks with
  | None => Some (emit ConsoleError (set_loader false s0))
  | Some songs =>
      match pickSongs fuel songs (rng s0) with
      | Picked sel c' => Some (set_randomSongs sel (set_loader false (set_rng c' s0)))
      | NoSongs => Some (emit (Alert "No songs found!") (set_loader false s0))
      | StillLooping => None
      end
  end.

Inductive Event :=
  | ClickMood (mood : string)       (* onClick of a mood button *)
  | OpenWebcam                      (* "Play my mood!" *)
  | CloseWebcam                     (* closeWebcamModal *)
  | Detected (mood : string)        (* WebcamModal's setEmotion *)
  | ModelsReady                     (* Promise.all resolved *)
  | ModelsErr                       (* Promise.all rejected, no catch *)
  | GeoOk (lat lon : string)        (* geolocation callback, no error *)
  | GeoErr                          (* geolocation callback, throw err *)
  | WeatherOk (loc text : string)   (* weather response *)
  | WeatherErr (loc : string)       (* weather rejection, unhandled *)
  | SearchOk (id : nat) (tracks : option (list Song))
  | SearchErr (id : nat).

(** The handler of an event, before the re-render. *)
Definition handler (fuel : nat) (ev : Event) (s : State) : option State :=
  match ev with
  | ClickMood m => Some (recommendSongs m s)
  | OpenWebcam => Some (set_webcamModal true s)
  | CloseWebcam => Some (set_webcamModal false s)
  | Detected m => Some (set_emotion m s)
  | ModelsReady => Some (set_modelsLoaded (finish KModels s))
  | ModelsErr => Some (finish KModels s)
  | GeoOk lat lon => Some (set_location (location_string lat lon) (finish KGeo s))
  | GeoErr => Some (finish KGeo s)
  | WeatherOk loc text => Some (set_weather text (finish (KWeather loc) s))
  | WeatherErr loc => Some (finish (KWeather loc) s)
  | SearchOk id tracks => search_response fuel id tracks s
  | SearchErr id => Some (emit ConsoleError (set_loader false (finish (KSearch id) s)))
  end.

(** The handler followed by the re-render. *)
Definition handle (fuel : nat) (ev : Event) (s : State) : option State :=
  s' ← handler fuel ev s; Some (commit s s').

(** When an event can happen: the buttons pass one of the seven moods,
    the modal's callbacks need the modal open, and a completion needs
    its operation in flight. *)
Definition enabled (ev : Event) (s : State) : Prop :=
  match ev with
  | ClickMood m => m ∈ moods
  | OpenWebcam => True
  | CloseWebcam | Detected _ => webcamModal s = true
  | ModelsReady | ModelsErr => KModels ∈ key_of <$> pending s
  | GeoOk _ _ | GeoErr => KGeo ∈ key_of <$> pending s
  | WeatherOk loc _ | WeatherErr loc => KWeather loc ∈ key_of <$> pending s
  | SearchOk id _ | SearchErr id => KSearch id ∈ key_of <$> pending s
  end.

#[global] Instance enabled_dec ev s : Decision (enabled ev s).
Proof. destruct ev; simpl; apply _. Defined.

Inductive step : State -> State -> Prop :=
  | step_event ev fuel s s' :
      enabled ev s -> handle fuel ev s = Some s' -> step s s'.

Definition reachable (s : State) : Prop := rtc step initial s.

(** What the page shows under the mood and weather lines (268-306). *)
Inductive View :=
  | Spinner
  | SongGrid (songs : list (option Song)) (quote : option string)
  | NoView.

Definition view_songs (s : State) : View :=
  if loader s then Spinner
  else if decide (0 < length (randomSongs s)) then SongGrid (randomSongs s) (currentQuote s)
  else NoView.
End Handlers.

Arguments Event : clear implicits.
Arguments View : clear implicits.

(** ** Invariants of the reachable states *)

(** Unfold the setters. *)
Ltac unfold_setters :=
  unfold set_loader, set_randomSongs, set_webcamModal, set_emotion, set_weather,
    set_location, set_modelsLoaded, set_mood_view, emit, set_rng, start, finish,
    start_search in *; simpl in *.

(** Unfold the setters and effects and split their branches, until
    nothing is left to unfold or split. *)
Ltac unfold_session :=
  repeat first
    [ progress (unfold set_loader, set_randomSongs, set_webcamModal, set_emotion,
        set_weather, set_location, set_modelsLoaded, set_mood_view, emit, set_rng,
        start, finish, start_search, recommendSongs, effect_emotion,
        effect_location, effect_recommend in *; simpl in * )
    | case_match ].

Section Invariants.
Context `{RS : RandomSource}.
Context {Song : Type}.
Abbreviation State := (State Song).
Implicit Types (s : State).

(** The loader is on only while no songs are shown (spec section 3). *)
Definition loader_ok s : Prop := loader s = true -> randomSongs s = [].

(** The shown songs are none, or 3 to 5 defined tracks. *)
Definition songs_ok s : Prop :=
  randomSongs s = [] \/ exists out, randomSongs s = Some <$> out /\ 3 <= length out <= 5.

(** Background and quote belong to the current (truthy) mood. *)
Definition view_ok s : Prop :=
  forall m, truthy (emotion s) = Some m ->
    background s = Some (getBackgroundColor m) /\
    exists r, (0 <= r < random_unit)%Z /\ currentQuote s = getRandomQuote r m.

(** A search in flight has an id below the counter and the fixed options
    with a non-empty weather in its term. *)
Definition search_ok (n : nat) (p : Pending) : Prop :=
  match p with
  | PSearch id o => id < n /\ exists m w, w <> "" /\ o = search_options m w
  | _ => True
  end.

Definition searches_ok s : Prop := Forall (search_ok (next_req s)) (pending s).

Definition session_inv s : Prop :=
  loader_ok s /\ songs_ok s /\ view_ok s /\ searches_ok s.

Lemma truthy_nonempty m : m <> "" -> truthy (Some m) = Some m.
Proof. intros Hm. simpl. by case_decide. Qed.

Lemma truthy_Some o m : truthy o = Some m -> o = Some m /\ m <> "".
Proof. destruct o as [x|]; simpl; [case_decide; intros; simplify_eq; done | done]. Qed.

(** The loader and the song list through the effects and the commit. *)
Lemma recommendSongs_loader m s :
  loader (recommendSongs m s) = true /\ randomSongs (recommendSongs m s) = [].
Proof. unfold_session; auto. Qed.

Lemma effect_emotion_frame s :
  loader (effect_emotion s) = loader s /\ randomSongs (effect_emotion s) = randomSongs s /\
  emotion (effect_emotion s) = emotion s /\ location (effect_emotion s) = location s /\
  weather (effect_emotion s) = weather s /\ pending (effect_emotion s) = pending s /\
  next_req (effect_emotion s) = next_req s.
Proof. unfold_session; auto 10. Qed.

Lemma effect_location_frame s :
  loader (effect_location s) = loader s /\ randomSongs (effect_location s) = randomSongs s /\
  emotion (effect_location s) = emotion s /\ location (effect_location s) = location s /\
  weather (effect_location s) = weather s /\ background (effect_location s) = background s /\
  currentQuote (effect_location s) = currentQuote s /\ next_req (effect_location s) = next_req s /\
  exists new, pending (effect_location s) = (pending s ++ new)%list /\
    Forall (fun p => forall id o, p <> PSearch id o) new.
Proof.
  unfold_session; (split; [done |]); do 7 (split; [done |]);
    eexists; (split; [by rewrite <- ?app_assoc |]);
    repeat (apply Forall_cons; split; [intros ??; discriminate |]); apply Forall_nil; done.
Qed.

Lemma effect_recommend_loader s :
  loader_ok s /\ songs_ok s ->
  loader_ok (effect_recommend s) /\ songs_ok (effect_recommend s).
Proof.
  unfold effect_recommend. case_match; [| done].
  destruct (recommendSongs_loader s0 s) as [E1 E2].
  unfold loader_ok, songs_ok. rewrite E2. auto.
Qed.

Lemma effect_emotion_loader s :
  loader_ok s /\ songs_ok s ->
  loader_ok (effect_emotion s) /\ songs_ok (effect_emotion s).
Proof.
  destruct (effect_emotion_frame s) as (E1 & E2 & _).
  unfold loader_ok, songs_ok. by rewrite E1, E2.
Qed.

Lemma effect_location_loader s :
  loader_ok s /\ songs_ok s ->
  loader_ok (effect_location s) /\ songs_ok (effect_location s).
Proof.
  destruct (effect_location_frame s) as (E1 & E2 & _).
  unfold loader_ok, songs_ok. by rewrite E1, E2.
Qed.

(** A property that each effect preserves holds after the commit. *)
Lemma commit_preserves (P : State -> Prop) prev s :
  (forall s1, P s1 -> P (effect_emotion s1)) -> (forall s1, P s1 -> P (effect_location s1)) ->
  (forall s1, P s1 -> P (effect_recommend s1)) -> P s -> P (commit prev s).
Proof. intros He Hl Hr H. unfold commit. case_bool_decide; case_bool_decide; auto. Qed.

Lemma commit_loader prev s :
  loader_ok s /\ songs_ok s -> loader_ok (commit prev s) /\ songs_ok (commit prev s).
Proof.
  apply (commit_preserves (fun s => loader_ok s /\ songs_ok s)).
  - apply effect_emotion_loader.
  - apply effect_location_loader.
  - apply effect_recommend_loader.
Qed.

Lemma search_response_loader fuel id tracks s s' :
  search_response fuel id tracks s = Some s' ->
  loader_ok s /\ songs_ok s -> loader_ok s' /\ songs_ok s'.
Proof.
  unfold search_response. intros H [Hl Hs].
  destruct tracks as [songs|]; [destruct (pickSongs _ _ _) eqn:Hp |];
    simplify_eq; unfold_setters; unfold loader_ok, songs_ok in *; simpl;
    split; try done.
  right. by eapply pickSongs_shape.
Qed.

Lemma handler_loader fuel ev s s' :
  handler fuel ev s = Some s' ->
  loader_ok s /\ songs_ok s -> loader_ok s' /\ songs_ok s'.
Proof.
  destruct ev; simpl; intros H; try (by eapply search_response_loader);
    simplify_eq; intros [Hl Hs];
    [| unfold_setters; unfold loader_ok, songs_ok in *; simpl;
       split; [intros ?; try discriminate; auto | auto] ..].
  destruct (recommendSongs_loader mood s) as [E1 E2].
  unfold loader_ok, songs_ok. rewrite E2. auto.
Qed.

(** The background and the quote through the effects and handlers. *)
Lemma view_ok_frame s s' :
  view_ok s -> emotion s' = emotion s -> background s' = background s ->
  currentQuote s' = currentQuote s -> view_ok s'.
Proof. intros Hv E1 E2 E3 m. rewrite E1, E2, E3. apply Hv. Qed.

Lemma recommendSongs_frame m s :
  emotion (recommendSongs m s) = Some m /\ background (recommendSongs m s) = background s /\
  currentQuote (recommendSongs m s) = currentQuote s /\
  location (recommendSongs m s) = location s /\ weather (recommendSongs m s) = weather s.
Proof. unfold_session; auto. Qed.

Lemma effect_emotion_view s : view_ok (effect_emotion s).
Proof.
  intros m. destruct (effect_emotion_frame s) as (_ & _ & -> & _).
  unfold effect_emotion. intros Hm. rewrite Hm. simpl.
  split; [done | by exists (draw (rng s)); split; [apply draw_range |]].
Qed.

Lemma effect_location_view s : view_ok s -> view_ok (effect_location s).
Proof.
  intros Hv. destruct (effect_location_frame s) as (_ & _ & E1 & _ & _ & E2 & E3 & _).
  by eapply view_ok_frame.
Qed.

Lemma effect_recommend_view s : view_ok s -> view_ok (effect_recommend s).
Proof.
  intros Hv. unfold effect_recommend. destruct (truthy (emotion s)) as [m|] eqn:Hm; [| done].
  destruct (recommendSongs_frame m s) as (E1 & E2 & E3 & _).
  apply truthy_Some in Hm as [Hm _]. eapply view_ok_frame; [exact Hv | congruence | done | done].
Qed.

Lemma commit_view prev s :
  (emotion prev = emotion s -> view_ok s) -> view_ok (commit prev s).
Proof.
  intros H. unfold commit.
  case_bool_decide as He; case_bool_decide;
    repeat first [apply effect_recommend_view | apply effect_location_view];
    first [by apply H | apply effect_emotion_view].
Qed.

Lemma handler_frame_view fuel ev s s' :
  handler fuel ev s = Some s' ->
  background s' = background s /\ currentQuote s' = currentQuote s.
Proof.
  destruct ev; simpl; unfold search_response; intros H;
    repeat case_match; simplify_eq; unfold_session; auto.
Qed.

Lemma handler_view fuel ev s s' :
  handler fuel ev s = Some s' -> view_ok s ->
  emotion s = emotion s' -> view_ok s'.
Proof.
  intros H Hv He. destruct (handler_frame_view _ _ _ _ H).
  by eapply view_ok_frame.
Qed.

(** The searches in flight through the effects and handlers. *)
Lemma search_ok_mono n n' p : n <= n' -> search_ok n p -> search_ok n' p.
Proof. destruct p; simpl; try done. intros ? [? ?]. split; [lia | done]. Qed.

Lemma remove_key_Forall (P : Pending -> Prop) k l :
  Forall P l -> Forall P (remove_key k l).
Proof.
  induction 1 as [|p l Hp Hl IH]; simpl; [constructor |].
  case_decide; [done | by constructor].
Qed.

Lemma Forall_search_ok_S n l :
  Forall (search_ok n) l -> Forall (search_ok (S n)) l.
Proof. intros H. eapply Forall_impl; [exact H |]. intros p. apply search_ok_mono. lia. Qed.

Lemma recommendSongs_searches m s :
  searches_ok s -> searches_ok (recommendSongs m s).
Proof.
  unfold searches_ok, recommendSongs. intros H.
  destruct (truthy (weather s)) as [w|] eqn:Hw; unfold_setters; [| done].
  apply Forall_app. split; [by apply Forall_search_ok_S |].
  apply truthy_Some in Hw as [_ Hw].
  constructor; [| constructor]. simpl. split; [lia | by exists m, w].
Qed.

Lemma effect_emotion_searches s : searches_ok s -> searches_ok (effect_emotion s).
Proof.
  unfold searches_ok. destruct (effect_emotion_frame s) as (_ & _ & _ & _ & _ & -> & ->). done.
Qed.

Lemma effect_location_searches s : searches_ok s -> searches_ok (effect_location s).
Proof.
  unfold searches_ok. intros H.
  destruct (effect_location_frame s) as (_ & _ & _ & _ & _ & _ & _ & -> & new & -> & Hnew).
  apply Forall_app. split; [done |].
  eapply Forall_impl; [exact Hnew |]. intros [] Hp; simpl; try done. by destruct (Hp id opts).
Qed.

Lemma effect_recommend_searches s : searches_ok s -> searches_ok (effect_recommend s).
Proof. unfold effect_recommend. case_match; [apply recommendSongs_searches | done]. Qed.

Lemma commit_searches prev s : searches_ok s -> searches_ok (commit prev s).
Proof.
  apply commit_preserves;
    [apply effect_emotion_searches | apply effect_location_searches | apply effect_recommend_searches].
Qed.

Lemma handler_searches fuel ev s s' :
  handler fuel ev s = Some s' -> searches_ok s -> searches_ok s'.
Proof.
  destruct ev; simpl; unfold search_response; intros H Hs;
    repeat case_match; simplify_eq; try by apply recommendSongs_searches.
  all: unfold searches_ok in *; unfold_setters; first [done | by apply remove_key_Forall].
Qed.

Lemma handle_inv fuel ev s s' :
  handle fuel ev s = Some s' -> session_inv s -> session_inv s'.
Proof.
  unfold handle. destruct (handler fuel ev s) as [s1|] eqn:Hh; [| done].
  intros [= <-] (Hl & Hs & Hv & Hq).
  destruct (commit_loader s s1) as [? ?]; [by eapply handler_loader |].
  split; [done |]. split; [done |]. split.
  - apply commit_view. intros He. by eapply handler_view.
  - apply commit_searches. by eapply handler_searches.
Qed.

Lemma initial_inv : session_inv initial.
Proof.
  unfold session_inv, loader_ok, songs_ok, view_ok, searches_ok. simpl.
  split; [done |]. split; [by left |]. split; [done |].
  repeat constructor.
Qed.

Lemma steps_inv s s' : rtc step s s' -> session_inv s -> session_inv s'.
Proof.
  induction 1 as [|x y z [ev fuel ? ? _ Hh] _ IH]; intros Hx; [done |].
  apply IH. by eapply handle_inv.
Qed.

(** The invariant holds in every reachable state. *)
Lemma reachable_inv (s : State) :
  reachable s -> session_inv s.
Proof. intros Hr. eapply steps_inv; [exact Hr | apply initial_inv]. Qed.

(** (C4) Every reachable state of the component satisfies the session
    invariant: the loader is on only when no songs are shown; the shown
    songs are none or 3 to 5 defined tracks; the background and the
    quote are those of the current mood (the quote read by
    [getRandomQuote] at some draw); and every search in flight carries
    the fixed options (locale en-US, offset 0, limit 20) and the term
    [mood + " " + weather] with a non-empty weather. *)
Theorem reachable_session_inv (s : State) :
  reachable s -> session_inv s.
Proof. exact (reachable_inv s). Qed.
End Invariants.

(** ** Behaviour of the handlers *)

Section Behaviour.
Context `{RS : RandomSource}.
Context {Song : Type}.
Abbreviation State := (State Song).
Implicit Types (s : State).

(** The commit never turns the loader off. *)
Lemma commit_loader_true prev s :
  loader s = true -> loader (commit prev s) = true.
Proof.
  intros Hl. unfold commit.
  assert (HR : forall s1, loader s1 = true -> loader (effect_recommend s1) = true).
  { intros s1 H1. unfold effect_recommend. case_match; [apply recommendSongs_loader | done]. }
  destruct (effect_emotion_frame s) as [E1 _].
  case_bool_decide; case_bool_decide; repeat apply HR;
    try rewrite (proj1 (effect_location_frame _)); rewrite ?E1; done.
Qed.

(** The effects of the commit leave [emotion] and [location] as the
    handler set them: a second render runs no effect. *)
Lemma commit_deps prev s :
  emotion (commit prev s) = emotion s /\ location (commit prev s) = location s.
Proof.
  unfold commit.
  assert (HR : forall s1, emotion (effect_recommend s1) = emotion s1 /\
                          location (effect_recommend s1) = location s1).
  { intros s1. unfold effect_recommend. destruct (truthy (emotion s1)) as [m|] eqn:Hm; [| done].
    apply truthy_Some in Hm as [Hm _]. destruct (recommendSongs_frame m s1) as (-> & _ & _ & -> & _).
    done. }
  destruct (effect_emotion_frame s) as (_ & _ & E1 & E2 & _).
  case_bool_decide; case_bool_decide;
    repeat (rewrite (proj1 (HR _)) || rewrite (proj2 (HR _)));
    repeat (rewrite (proj1 (proj2 (proj2 (effect_location_frame _))))
            || rewrite (proj1 (proj2 (proj2 (proj2 (effect_location_frame _))))));
    rewrite ?E1, ?E2; done.
Qed.

(** Only the non-search handlers' view of the loader: they leave it or
    turn it on. *)
Lemma handler_loader_on fuel ev s s' :
  handler fuel ev s = Some s' -> loader s = true ->
  (forall id tracks, ev <> SearchOk id tracks) -> (forall id, ev <> SearchErr id) ->
  loader s' = true.
Proof.
  intros H Hl Hok Herr. destruct ev; simpl in H; simplify_eq;
    try (by edestruct Hok); try (by edestruct Herr);
    [apply recommendSongs_loader | unfold_setters; done ..].
Qed.

(** (C10) The loading spinner is cleared only by a search response: a
    step that turns [loader] from on to off handles [SearchOk] or
    [SearchErr] for a search in flight.  In particular a weather
    response does not clear it, so after a click with an unknown
    weather the spinner stays until the user clicks again. *)
Theorem loader_cleared_only_by_search (ev : Event Song) (fuel : nat) (s s' : State) :
  enabled ev s -> handle fuel ev s = Some s' ->
  loader s = true -> loader s' = false ->
  exists id, KSearch id ∈ key_of <$> pending s /\
    ((exists tracks, ev = SearchOk id tracks) \/ ev = SearchErr id).
Proof.
  intros Hen Hh Hl Hl'. unfold handle in Hh.
  destruct (handler fuel ev s) as [s1|] eqn:Hh1; [injection Hh as <- | done].
  destruct ev as [| | | | | | | | | | id tracks | id];
    try (exists id; split; [exact Hen | eauto]).
  all: exfalso; rewrite (commit_loader_true s s1) in Hl'; [done |];
    apply (handler_loader_on fuel _ s s1 Hh1 Hl); done.
Qed.

(** The commit runs nothing when the handler changed neither
    dependency. *)
Lemma commit_same prev s :
  emotion prev = emotion s -> location prev = location s -> commit prev s = s.
Proof. intros E1 E2. unfold commit. by rewrite !bool_decide_eq_true_2. Qed.

Lemma recommendSongs_no_weather m s :
  truthy (weather s) = None ->
  recommendSongs m s =
    emit (Alert "Detecting weather...") (set_randomSongs [] (set_loader true (set_emotion m s))).
Proof. unfold recommendSongs. by intros ->. Qed.

Lemma recommendSongs_with_weather m w s :
  truthy (weather s) = Some w ->
  recommendSongs m s =
    start_search (search_options m w) (set_randomSongs [] (set_loader true (set_emotion m s))).
Proof. unfold recommendSongs. by intros ->. Qed.

(** When the handler kept [location], the commit runs at most the two
    effects on [[emotion]]. *)
Lemma commit_no_location prev s :
  location prev = location s ->
  commit prev s =
    if bool_decide (emotion prev = emotion s) then s else effect_recommend (effect_emotion s).
Proof.
  intros Hl. unfold commit. destruct (effect_emotion_frame s) as (_ & _ & _ & E & _).
  case_bool_decide; rewrite bool_decide_eq_true_2; congruence.
Qed.

(** What a click leaves when the weather is unknown. *)
Definition no_weather_state (p : list Pending) s : Prop :=
  loader s = true /\ randomSongs s = [] /\ pending s = p /\
  Alert "Detecting weather..." ∈ log s /\ truthy (weather s) = None.

Lemma recommendSongs_no_weather_state m s :
  truthy (weather s) = None -> no_weather_state (pending s) (recommendSongs m s).
Proof.
  intros Hw. rewrite recommendSongs_no_weather by done.
  repeat split; try done. apply elem_of_app. right. by apply list_elem_of_singleton.
Qed.

Lemma effect_emotion_no_weather p s :
  no_weather_state p s -> no_weather_state p (effect_emotion s).
Proof.
  intros (H1 & H2 & H3 & H4 & H5).
  destruct (effect_emotion_frame s) as (E1 & E2 & _ & _ & E5 & E6 & _).
  repeat split; try congruence.
  unfold effect_emotion. case_match; [| done]. apply elem_of_app. by left.
Qed.

Lemma effect_recommend_no_weather p s :
  no_weather_state p s -> no_weather_state p (effect_recommend s).
Proof.
  intros Hs. unfold effect_recommend. case_match; [| done].
  destruct Hs as (_ & _ & <- & _ & Hw). by apply recommendSongs_no_weather_state.
Qed.

(** (C8) A mood click while the weather is unknown (the spec's
    [NoWeather]): the component alerts "Detecting weather...", issues
    no search, and leaves the loader on with no songs, where the spec
    asks to clear the loading flag. *)
Theorem click_without_weather (m : string) (fuel : nat) (s s' : State) :
  truthy (weather s) = None -> handle fuel (ClickMood m) s = Some s' ->
  loader s' = true /\ randomSongs s' = [] /\ pending s' = pending s /\
  Alert "Detecting weather..." ∈ log s'.
Proof.
  intros Hw Hh. unfold handle, handler in Hh. simpl in Hh. injection Hh as <-.
  assert (Hn : no_weather_state (pending s) (commit s (recommendSongs m s))).
  { rewrite commit_no_location by (symmetry; apply recommendSongs_frame).
    pose proof (recommendSongs_no_weather_state m s Hw).
    case_bool_decide; [done |].
    by apply effect_recommend_no_weather, effect_emotion_no_weather. }
  destruct Hn as (? & ? & ? & ? & _). done.
Qed.

(** (C7) A click on a mood other than the current one, with the weather
    known, sends two identical searches: [recommendSongs] sends one and
    the effect on [[emotion]] calls [recommendSongs] again. *)
Theorem click_new_mood_two_searches (m w : string) (fuel : nat) (s s' : State) :
  truthy (weather s) = Some w -> emotion s <> Some m -> m <> "" ->
  handle fuel (ClickMood m) s = Some s' ->
  pending s' = (pending s ++ [PSearch (next_req s) (search_options m w);
                              PSearch (S (next_req s)) (search_options m w)])%list /\
  next_req s' = S (S (next_req s)).
Proof.
  intros Hw He Hm Hh. unfold handle, handler in Hh. simpl in Hh. injection Hh as <-.
  rewrite commit_no_location by (symmetry; apply recommendSongs_frame).
  rewrite bool_decide_eq_false_2 by (rewrite (proj1 (recommendSongs_frame m s)); congruence).
  rewrite (recommendSongs_with_weather m w s Hw).
  set (s1 := start_search _ _).
  destruct (effect_emotion_frame s1) as (_ & _ & Ee & _ & Ew & Ep & En).
  unfold effect_recommend. rewrite Ee. cbn [s1 emotion start_search set_randomSongs
    set_loader set_emotion]. rewrite truthy_nonempty by done.
  rewrite (recommendSongs_with_weather m w) by (rewrite Ew; done).
  cbn [pending next_req start_search set_randomSongs set_loader set_emotion].
  rewrite Ep, En. cbn [s1 pending next_req start_search set_randomSongs set_loader set_emotion].
  by rewrite <- app_assoc.
Qed.

(** (C14) A failed search (the spec's [SearchFailed]) is only written to
    the console: the loader goes off, the shown songs stay, and no
    notice reaches the user, where the spec asks for one. *)
Theorem search_error_silent (id fuel : nat) (s s' : State) :
  handle fuel (SearchErr id) s = Some s' ->
  loader s' = false /\ randomSongs s' = randomSongs s /\
  log s' = (log s ++ [ConsoleError])%list /\ pending s' = remove_key (KSearch id) (pending s).
Proof.
  unfold handle, handler. simpl. intros [= <-].
  rewrite commit_same by (unfold_setters; done). unfold_setters. done.
Qed.

End Behaviour.

(** ** Traces *)

Section Traces.
Context `{RS : RandomSource}.
Context {Song : Type}.
Abbreviation State := (State Song).

(** Run a list of events from [s], each one enabled, with [fuel] for the
    selection loops. *)
Fixpoint run (fuel : nat) (evs : list (Event Song)) (s : State) : option State :=
  match evs with
  | [] => Some s
  | ev :: evs' =>
      if decide (enabled ev s) then s' ← handle fuel ev s; run fuel evs' s' else None
  end.

Lemma run_steps fuel evs s s' : run fuel evs s = Some s' -> rtc step s s'.
Proof.
  revert s. induction evs as [|ev evs IH]; intros s; simpl; [by intros [= ->] |].
  case_decide as Hen; [| done].
  destruct (handle fuel ev s) as [s1|] eqn:Hh; simpl; [| done].
  intros Hr. eapply rtc_l; [by econstructor | by apply IH].
Qed.

Lemma run_reachable fuel evs s : run fuel evs initial = Some s -> reachable s.
Proof. apply run_steps. Qed.

(** (C9) Whenever the song grid is shown for one of the seven moods, it
    shows 3 to 5 defined tracks, the quote under it is one of that
    mood's quotes, and the page background is that mood's gradient
    (the end-to-end property of the spec's section 8). *)
Theorem grid_shows_mood (s : State) (sel : list (option Song)) (q : option string) (m : string) :
  reachable s -> view_songs s = SongGrid sel q -> emotion s = Some m -> m ∈ moods ->
  (exists out, sel = Some <$> out /\ 3 <= length out <= 5) /\
  background s = Some (getBackgroundColor m) /\
  exists q' pool, q = Some q' /\ quotes !! m = Some pool /\ q' ∈ pool.
Proof.
  intros Hr Hv He Hm. destruct (reachable_inv s Hr) as (_ & Hs & Hview & _).
  unfold view_songs in Hv. destruct (loader s); [done |].
  case_decide as Hlen; [injection Hv as <- <- | done].
  destruct (moods_plain m Hm) as [Hne Hk].
  destruct (Hview m) as [Hbg [r [Hr' Hq]]]; [rewrite He; by apply truthy_nonempty |].
  split; [destruct Hs as [Hs | Hs]; [rewrite Hs in Hlen; simpl in Hlen; lia | done] |].
  split; [done |].
  destruct (getRandomQuote_pool r m Hr' Hk) as [q' [Hq' Hin]].
  destruct (proj2 (quotes_is_Some m) Hm) as [pool Hpool]. rewrite Hpool in Hin.
  exists q', pool. rewrite Hq. done.
Qed.
End Traces.

(** ** Concrete sessions *)

Definition happy_tracks : list nat := [101; 102; 103; 104; 105; 106; 107; 108; 109; 110].
Definition sad_tracks : list nat := [201; 202; 203; 204; 205; 206; 207; 208; 209; 210].

(** The state after a list of events, from the first render, with the Weyl
    generator for [Math.random()]. *)
Definition session_after (evs : list (Event nat)) : State nat :=
  default (@initial weyl_source nat) (@run weyl_source nat 100 evs initial).

Definition located : list (Event nat) := [GeoOk "48.85" "2.35"].
Definition sunny : list (Event nat) := (located ++ [WeatherOk "48.85,2.35" "Sunny"])%list.
Definition clicked_happy : list (Event nat) := (sunny ++ [ClickMood "Happy"])%list.
Definition happy_shown : list (Event nat) :=
  (clicked_happy ++ [SearchOk 0 (Some happy_tracks); SearchOk 1 (Some happy_tracks)])%list.


Lemma session_after_reachable evs :
  @run weyl_source nat 100 evs initial = Some (session_after evs) ->
  @reachable weyl_source nat (session_after evs).
Proof. apply run_reachable. Qed.

(** (C6) The stale-response race of the spec's section 5: with the
    weather known, the user clicks Happy (searches 0 and 1) and then Sad
    (searches 2 and 3); the Sad responses arrive first and the Happy
    response 0 last.  The page then shows tracks of the Happy response
    under the Sad mood: the last response wins, where the spec requires
    the last request to win. *)
Theorem stale_response_overwrites :
  exists s, @reachable weyl_source nat s /\ emotion s = Some "Sad" /\
    randomSongs s <> [] /\
    Forall (fun o => exists t, o = Some t /\ t ∈ happy_tracks) (randomSongs s).
Proof.
  set (evs := (clicked_happy ++ [ClickMood "Sad"; SearchOk 2 (Some sad_tracks);
                 SearchOk 3 (Some sad_tracks); SearchOk 0 (Some happy_tracks)])%list).
  exists (session_after evs).
  split; [apply session_after_reachable; vm_compute; reflexivity |].
  vm_compute. split; [reflexivity | split; [discriminate |]].
  repeat (apply Forall_cons; split; [eexists; split; [reflexivity | repeat constructor] |]).
  apply Forall_nil. done.
Qed.

(** ** Witnesses *)

Abbreviation whandle := (@handle weyl_source nat 100).

Ltac by_compute := vm_compute; reflexivity.
Ltac by_decide := apply (bool_decide_unpack _); vm_compute; reflexivity.

(** Witness of C4: the state showing the Happy songs. *)
Lemma reachable_session_inv_witness : session_inv (session_after happy_shown).
Proof.
  apply (@reachable_session_inv weyl_source nat).
  apply session_after_reachable. by_compute.
Defined.

(** Witness of C10: the response to search 0 clears the loader. *)
Lemma loader_cleared_only_by_search_witness :
  exists id, KSearch id ∈ key_of <$> pending (session_after clicked_happy) /\
    ((exists tracks, @SearchOk nat 0 (Some happy_tracks) = SearchOk id tracks) \/
     @SearchOk nat 0 (Some happy_tracks) = SearchErr id).
Proof.
  apply (@loader_cleared_only_by_search weyl_source nat _ 100 _
           (session_after (clicked_happy ++ [SearchOk 0 (Some happy_tracks)])%list));
    [by_decide | by_compute | by_compute | by_compute].
Defined.

(** Witness of C8: a click on Sad before the weather arrived. *)
Lemma click_without_weather_witness :
  let s' := session_after (located ++ [ClickMood "Sad"])%list in
  loader s' = true /\ randomSongs s' = [] /\ pending s' = pending (session_after located) /\
  Alert "Detecting weather..." ∈ log s'.
Proof. cbv zeta. apply (@click_without_weather weyl_source nat "Sad" 100); by_compute. Defined.

(** Witness of C7: the click on Happy with the weather Sunny. *)
Lemma click_new_mood_two_searches_witness :
  pending (session_after clicked_happy) =
    (pending (session_after sunny) ++
     [PSearch (next_req (session_after sunny)) (search_options "Happy" "Sunny");
      PSearch (S (next_req (session_after sunny))) (search_options "Happy" "Sunny")])%list /\
  next_req (session_after clicked_happy) = S (S (next_req (session_after sunny))).
Proof.
  apply (@click_new_mood_two_searches weyl_source nat "Happy" "Sunny" 100);
    [by_compute | vm_compute; discriminate | done | by_compute].
Defined.

(** Witness of C14: search 0 fails after the click on Happy. *)
Lemma search_error_silent_witness :
  let s := session_after clicked_happy in
  let s' := session_after (clicked_happy ++ [SearchErr 0])%list in
  loader s' = false /\ randomSongs s' = randomSongs s /\
  log s' = (log s ++ [ConsoleError])%list /\ pending s' = remove_key (KSearch 0) (pending s).
Proof. cbv zeta. apply (@search_error_silent weyl_source nat 0 100). by_compute. Defined.

(** Witness of C9: the spec's scenario Happy, Sunny, ten tracks. *)
Lemma grid_shows_mood_witness :
  let s := session_after happy_shown in
  (exists out, randomSongs s = Some <$> out /\ 3 <= length out <= 5) /\
  background s = Some (getBackgroundColor "Happy") /\
  exists q' pool, currentQuote s = Some q' /\ quotes !! "Happy" = Some pool /\ q' ∈ pool.
Proof.
  cbv zeta. apply (@grid_shows_mood weyl_source nat); [| by_compute | by_compute | by_decide].
  apply session_after_reachable. by_compute.
Defined.
