(* ===== verification/Lifecycle.v ===== *)
(** * The session's lifecycle: the quote cell, geolocation, the webcam
    detections and the error paths

    Built on the model of [Session.v].  [Reachability] gives induction
    over the reachable states; [QuoteCell] proves that, in a state showing
    a mood, the quote cell holds [undefined] exactly when the mood names
    a member of [Object.prototype] (C29); [GeoCallback] and [Geolocation]
    follow the geolocation callback (line 132) and the weather calls it
    starts, and prove that the location is a "lat,lon" string set once
    with the weather requests in flight for it (C30); [Lifecycle] proves
    the round trips of the location (C22) and of the search term (C24),
    the second model load (C23), the webcam detections (C25, C26), and
    the empty response (C27) and the failed model load (C28).  The
    witnesses run concrete sessions of [Session.v]. *)

From S2P Require Import Prelude JsRandom MoodMapper Selector Session.

Local Open Scope string_scope.
Local Open Scope emotify_scope.

(** ** Induction over the reachable states, and the quote cell *)

Section Reachability.
Context `{RS : RandomSource}.
Context {Song : Type}.
Abbreviation State := (State Song).
Implicit Types (s : State).

(** Induction over the reachable states. *)
Lemma reachable_preserved (P : State -> Prop) :
  P initial ->
  (forall ev fuel s s', enabled ev s -> handle fuel ev s = Some s' -> P s -> P s') ->
  forall s, reachable s -> P s.
Proof.
  intros Hi Hstep. unfold reachable. apply rtc_ind_r; [done |].
  intros y z _ [ev fuel ? ? Hen Hh] Hy. by eapply Hstep.
Qed.

(** A property kept by the handlers and by the effects holds after
    every [handle]. *)
Lemma handle_preserves (P : State -> Prop) fuel ev s s' :
  (forall s1, P s1 -> P (effect_emotion s1)) -> (forall s1, P s1 -> P (effect_location s1)) ->
  (forall s1, P s1 -> P (effect_recommend s1)) ->
  (forall s1, handler fuel ev s = Some s1 -> P s1) ->
  handle fuel ev s = Some s' -> P s'.
Proof.
  intros He Hl Hr Hh. unfold handle. destruct (handler fuel ev s) as [s1|] eqn:E; [| done].
  intros [= <-]. apply commit_preserves; auto.
Qed.
End Reachability.

Section QuoteCell.
Context `{RS : RandomSource}.
Context {Song : Type}.
Abbreviation State := (State Song).
Implicit Types (s : State).

(** (C29) The type of the quote cell: in every reachable state showing
    a mood [m], the cell holds [undefined] exactly when [m] names a
    member of [Object.prototype]; for every other mood it holds a string
    (the spec's [quoteFor] never fails). *)
Theorem quote_cell_typed (s : State) (m : string) :
  reachable s -> truthy (emotion s) = Some m ->
  (currentQuote s = None <-> m ∈ object_prototype_keys).
Proof.
  intros Hr Hm. destruct (reachable_inv s Hr) as (_ & _ & Hv & _).
  destruct (Hv m Hm) as [_ (r & Hr' & ->)]. by apply getRandomQuote_None_iff.
Qed.
End QuoteCell.

(** ** The geolocation callback *)

Section GeoCallback.
Context `{RS : RandomSource}.
Context {Song : Type}.
Abbreviation State := (State Song).
Implicit Types (s : State).

(** The commit after a handler that changed only [location] runs only
    the effect on [[location]]. *)
Lemma commit_location_only prev s :
  emotion prev = emotion s -> location prev <> location s -> commit prev s = effect_location s.
Proof.
  intros He Hl. unfold commit.
  rewrite bool_decide_eq_true_2 by done. by rewrite bool_decide_eq_false_2.
Qed.

Lemma truthy_location_string lat lon :
  truthy (Some (location_string lat lon)) = Some (location_string lat lon).
Proof. apply truthy_nonempty. unfold location_string. destruct lat, lon; discriminate. Qed.

(** The geolocation callback, from a page without a location. *)
Lemma handle_geo_ok fuel lat lon s s' :
  location s = None -> handle fuel (GeoOk lat lon) s = Some s' ->
  s' = effect_location (set_location (location_string lat lon) (finish KGeo s)).
Proof.
  intros Hl Hh. unfold handle, handler in Hh. simpl in Hh. injection Hh as <-.
  apply commit_location_only; cbn [set_location finish emotion location]; congruence.
Qed.
End GeoCallback.

(** ** The location cell and the weather requests *)

(** The geolocation callbacks in flight. *)
Definition geo_count (l : list Pending) : nat :=
  length (filter (fun p => key_of p = KGeo) l).

(** The location and the operations in flight agree: before the
    location, no weather call and at most one geolocation callback;
    after it, a "lat,lon" string, no geolocation callback and only
    weather calls for it. *)
Definition loc_ok (loc : option string) (l : list Pending) : Prop :=
  match loc with
  | None => (forall w, KWeather w ∉ key_of <$> l) /\ geo_count l <= 1
  | Some x => (exists lat lon, x = location_string lat lon) /\ (KGeo ∉ key_of <$> l) /\
      forall w, KWeather w ∈ key_of <$> l -> w = x
  end.

(** Operations that concern neither the location nor the weather. *)
Definition quiet (p : Pending) : Prop := key_of p <> KGeo /\ forall w, key_of p <> KWeather w.

Lemma keys_remove_key k l p : p ∈ key_of <$> remove_key k l -> p ∈ key_of <$> l.
Proof.
  induction l as [|q l IH]; cbn [remove_key]; [done |].
  case_decide; rewrite !fmap_cons, !elem_of_cons; [tauto |].
  intros [-> | Hin]; [by left | right; by apply IH].
Qed.

Lemma geo_count_remove_key k l : geo_count (remove_key k l) <= geo_count l.
Proof.
  unfold geo_count. induction l as [|q l IH]; simpl; [done |].
  case_decide; [rewrite filter_cons; case_decide; simpl; lia |].
  rewrite !filter_cons. case_decide; simpl; lia.
Qed.

Lemma geo_count_gone l : geo_count l <= 1 -> KGeo ∉ key_of <$> remove_key KGeo l.
Proof.
  unfold geo_count. induction l as [|q l IH]; cbn [remove_key]; [set_solver |].
  rewrite filter_cons. destruct (decide (key_of q = KGeo)) as [Hq | Hq].
  - intros Hc Hin. apply list_elem_of_fmap in Hin as [p [Hp Hin]].
    assert (Hf : p ∈ filter (fun p => key_of p = KGeo) l) by (apply list_elem_of_filter; auto).
    destruct (filter _ l); [set_solver | simpl in Hc; lia].
  - intros Hc. rewrite fmap_cons, elem_of_cons. intros [? | ?]; [done | by apply IH].
Qed.

Lemma loc_ok_remove loc k l : loc_ok loc l -> loc_ok loc (remove_key k l).
Proof.
  destruct loc as [x|]; simpl.
  - intros (Hx & Hg & Hw). split; [done |]. split; [by intros ?%keys_remove_key |].
    intros w Hin. by apply Hw, (keys_remove_key k).
  - intros [Hw Hg]. split; [intros w Hin; by apply (Hw w), (keys_remove_key k) |].
    pose proof (geo_count_remove_key k l). lia.
Qed.

Lemma loc_ok_app_quiet loc l new : Forall quiet new -> loc_ok loc l -> loc_ok loc (l ++ new)%list.
Proof.
  intros Hq. assert (Hk : forall k, k ∈ key_of <$> (l ++ new)%list -> k ∈ key_of <$> l \/
                                    exists p, k = key_of p /\ quiet p).
  { intros k. rewrite fmap_app, elem_of_app. intros [H | H]; [by left |]. right.
    apply list_elem_of_fmap in H as [p [-> Hp]]. exists p. split; [done |].
    by eapply Forall_forall. }
  assert (Hc : geo_count (l ++ new)%list = geo_count l).
  { unfold geo_count. rewrite filter_app, length_app.
    replace (filter _ new) with (@nil Pending); [simpl; lia |].
    clear Hk. induction Hq as [|p new [Hp _] _ IH]; [done |].
    rewrite filter_cons, decide_False by done. done. }
  destruct loc as [x|]; simpl.
  - intros (Hx & Hg & Hw). split; [done |]. split.
    + intros [? | [p [Hp [Hq' _]]]]%Hk; [done | by apply Hq'].
    + intros w [? | [p [Hp [_ Hq']]]]%Hk; [by apply Hw | by destruct (Hq' w)].
  - intros [Hw Hg]. rewrite Hc. split; [| done].
    intros w [? | [p [Hp [_ Hq']]]]%Hk; [by apply (Hw w) | by destruct (Hq' w)].
Qed.

Section Geolocation.
Context `{RS : RandomSource}.
Context {Song : Type}.
Abbreviation State := (State Song).
Implicit Types (s : State).

Definition geo_inv s : Prop := loc_ok (location s) (pending s).

Lemma quiet_search id o : quiet (PSearch id o).
Proof. split; [discriminate | intros w; discriminate]. Qed.

Lemma quiet_models : quiet PModels.
Proof. split; [discriminate | intros w; discriminate]. Qed.

#[local] Hint Resolve quiet_search quiet_models : emotify.

Lemma recommendSongs_geo m s : geo_inv s -> geo_inv (recommendSongs m s).
Proof.
  unfold geo_inv, recommendSongs. intros H.
  destruct (truthy (weather s)); unfold_setters; [| done].
  apply loc_ok_app_quiet; [repeat constructor; auto with emotify | done].
Qed.

Lemma effect_emotion_geo s : geo_inv s -> geo_inv (effect_emotion s).
Proof.
  unfold geo_inv. destruct (effect_emotion_frame s) as (_ & _ & _ & -> & _ & -> & _). done.
Qed.

Lemma effect_recommend_geo s : geo_inv s -> geo_inv (effect_recommend s).
Proof. unfold effect_recommend. case_match; [apply recommendSongs_geo | done]. Qed.

(** The handlers other than the geolocation callback keep the location
    and the invariant. *)
Lemma handler_geo_other fuel ev s s1 :
  handler fuel ev s = Some s1 -> (forall lat lon, ev <> GeoOk lat lon) ->
  geo_inv s -> location s1 = location s /\ geo_inv s1.
Proof.
  intros H Hev Hg. destruct ev; simpl in H; unfold search_response in H;
    repeat case_match; simplify_eq; try by edestruct Hev.
  1: split; [apply recommendSongs_frame | by apply recommendSongs_geo].
  all: unfold geo_inv in *; unfold_setters; split; first [done | by apply loc_ok_remove].
Qed.

(** A weather call for the current location keeps the invariant. *)
Lemma loc_ok_app_weather x l : loc_ok (Some x) l -> loc_ok (Some x) (l ++ [PWeather x])%list.
Proof.
  intros (Hx & Hg & Hw). split; [done |]. rewrite fmap_app. simpl. split.
  - rewrite elem_of_app, list_elem_of_singleton. intros [? | ?]; [done | discriminate].
  - intros w. rewrite elem_of_app, list_elem_of_singleton.
    intros [? | [= ->]]; [by apply Hw | done].
Qed.

(** The geolocation callback, from a page whose callback is in flight. *)
Lemma handle_geo_inv fuel lat lon s s' :
  KGeo ∈ key_of <$> pending s -> handle fuel (GeoOk lat lon) s = Some s' ->
  geo_inv s -> geo_inv s'.
Proof.
  intros Hen Hh Hg. unfold geo_inv in Hg.
  destruct (location s) as [x|] eqn:Hl; [by destruct Hg as (_ & Hgeo & _) |].
  destruct Hg as [Hw Hc]. rewrite (handle_geo_ok fuel lat lon s s' Hl Hh).
  assert (Hrest : loc_ok (Some (location_string lat lon)) (remove_key KGeo (pending s))).
  { split; [by exists lat, lon |]. split; [by apply geo_count_gone |].
    intros w Hin. by destruct (Hw w); apply (keys_remove_key KGeo). }
  unfold geo_inv, effect_location. destruct (modelsLoaded _); cbn [start location pending
    set_location finish]; rewrite truthy_location_string; cbn [start location pending].
  - by apply loc_ok_app_weather.
  - apply loc_ok_app_weather, loc_ok_app_quiet; [repeat constructor; apply quiet_models | done].
Qed.

Lemma handle_geo_other fuel ev s s' :
  (forall lat lon, ev <> GeoOk lat lon) -> handle fuel ev s = Some s' -> geo_inv s -> geo_inv s'.
Proof.
  intros Hev Hh Hg. unfold handle in Hh.
  destruct (handler fuel ev s) as [s1|] eqn:H1; [injection Hh as <- | done].
  destruct (handler_geo_other fuel ev s s1 H1 Hev Hg) as [Hl Hg1].
  rewrite commit_no_location by done. case_bool_decide; [done |].
  by apply effect_recommend_geo, effect_emotion_geo.
Qed.

Lemma handle_geo ev fuel s s' :
  enabled ev s -> handle fuel ev s = Some s' -> geo_inv s -> geo_inv s'.
Proof.
  intros Hen Hh Hg.
  destruct ev as [| | | | | | lat lon | | | | |].
  7: exact (handle_geo_inv fuel lat lon s s' Hen Hh Hg).
  all: refine (handle_geo_other fuel _ s s' _ Hh Hg); intros ?? ?; discriminate.
Qed.

(** (C30) The location cell and the weather requests: in every reachable
    state the location is unset or a "lat,lon" string, once set it has
    no geolocation callback in flight that could replace it, and every
    weather request in flight is for the current location. *)
Theorem reachable_location_ok (s : State) :
  reachable s ->
  (location s = None \/ exists lat lon, location s = Some (location_string lat lon)) /\
  (location s <> None -> KGeo ∉ key_of <$> pending s) /\
  (forall w, KWeather w ∈ key_of <$> pending s -> location s = Some w).
Proof.
  intros Hr. assert (Hg : geo_inv s).
  { revert s Hr. apply (reachable_preserved geo_inv); [| apply handle_geo].
    unfold geo_inv, loc_ok, geo_count. simpl. split; [set_solver | done]. }
  unfold geo_inv, loc_ok in Hg. destruct (location s) as [x|].
  - destruct Hg as ([lat [lon ->]] & Hgeo & Hw).
    split; [right; eauto |]. split; [done |]. intros w Hin. by rewrite (Hw w Hin).
  - destruct Hg as [Hw _]. split; [by left |]. split; [done |].
    intros w Hin. by destruct (Hw w).
Qed.
End Geolocation.

(** ** Geolocation, the webcam and the error paths *)

Section Lifecycle.
Context `{RS : RandomSource}.
Context {Song : Type}.
Abbreviation State := (State Song).
Implicit Types (s : State).

(** (C22) Round trip of the location: after the geolocation callback,
    the [location] cell reads back, split at its first comma, as the
    latitude and longitude the callback received (a printed number has
    no comma), and the weather request in flight queries that
    location. *)
Theorem geo_location_roundtrip (fuel : nat) (lat lon : string) (s s' : State) :
  location s = None -> has_char ","%char lat = false ->
  handle fuel (GeoOk lat lon) s = Some s' ->
  exists l, location s' = Some l /\ split_at ","%char l = Some (lat, lon) /\
    PWeather l ∈ pending s'.
Proof.
  intros Hl Hc Hh. rewrite (handle_geo_ok fuel lat lon s s' Hl Hh).
  destruct (effect_location_frame (set_location (location_string lat lon) (finish KGeo s)))
    as (_ & _ & _ & -> & _).
  exists (location_string lat lon). split; [done |].
  split; [by apply split_at_append |].
  unfold effect_location. destruct (modelsLoaded _);
    cbn [start location set_location finish]; rewrite truthy_location_string;
    cbn [start pending]; apply elem_of_app; right; by apply list_elem_of_singleton.
Qed.

(** (C23) The models are requested twice when the location arrives
    before them: the effect on [[location]] runs [loadModels()] again
    because [modelsLoaded] is still false, so a second [Promise.all] of
    the four networks joins the first one in flight. *)
Theorem geo_before_models_reloads (fuel : nat) (lat lon : string) (s s' : State) :
  modelsLoaded s = false -> location s = None ->
  handle fuel (GeoOk lat lon) s = Some s' ->
  pending s' = (remove_key KGeo (pending s) ++ [PModels; PWeather (location_string lat lon)])%list.
Proof.
  intros Hm Hl Hh. rewrite (handle_geo_ok fuel lat lon s s' Hl Hh).
  unfold effect_location. cbn [modelsLoaded set_location finish]. rewrite Hm.
  cbn [start location set_location finish]. rewrite truthy_location_string.
  cbn [start pending]. by rewrite <- app_assoc.
Qed.

(** The seven button moods contain no space. *)
Lemma moods_no_space m : m ∈ moods -> has_char " "%char m = false.
Proof.
  revert m. apply Forall_forall. apply (bool_decide_unpack _). vm_compute. reflexivity.
Qed.

(** (C24) Round trip of the search term: for a button mood, the term
    [mood + " " + weather] of the request reads back, split at its first
    space, as the mood and the weather, whatever spaces the weather
    text has ("Partly cloudy"): distinct requests of the buttons carry
    distinct terms. *)
Theorem search_term_roundtrip (m w : string) :
  m ∈ moods -> split_at " "%char (opt_term (search_options m w)) = Some (m, w).
Proof. intros Hm. apply split_at_append, moods_no_space, Hm. Qed.

Lemma set_emotion_same m s : emotion s = Some m -> set_emotion m s = s.
Proof. destruct s; cbn. by intros ->. Qed.

(** (C25) A detection of the mood already shown changes nothing: the
    webcam's [setEmotion] with the current value triggers no effect, so
    no new recommendation is fetched (behaviour the spec leaves open). *)
Theorem detected_same_mood_noop (m : string) (fuel : nat) (s : State) :
  emotion s = Some m -> handle fuel (Detected m) s = Some s.
Proof.
  intros He. unfold handle, handler. simpl. rewrite set_emotion_same by done.
  by rewrite commit_same.
Qed.

(** (C26) A detection of a new mood, with the weather known, sends one
    search (the effect on [[emotion]] calls [recommendSongs] once), where
    a click on a button sends two (C7). *)
Theorem detected_new_mood_one_search (m w : string) (fuel : nat) (s s' : State) :
  truthy (weather s) = Some w -> emotion s <> Some m -> m <> "" ->
  handle fuel (Detected m) s = Some s' ->
  pending s' = (pending s ++ [PSearch (next_req s) (search_options m w)])%list /\
  next_req s' = S (next_req s) /\ loader s' = true /\ emotion s' = Some m.
Proof.
  intros Hw He Hm Hh. unfold handle, handler in Hh. simpl in Hh. injection Hh as <-.
  rewrite commit_no_location by done.
  rewrite bool_decide_eq_false_2 by (cbn [set_emotion emotion]; congruence).
  destruct (effect_emotion_frame (set_emotion m s)) as (_ & _ & Ee & _ & Ew & Ep & En).
  unfold effect_recommend. rewrite Ee. cbn [set_emotion emotion].
  rewrite truthy_nonempty by done.
  rewrite (recommendSongs_with_weather m w) by (rewrite Ew; done).
  cbn [pending next_req loader emotion start_search set_randomSongs set_loader set_emotion].
  rewrite Ep, En. done.
Qed.

(** (C27) A response without tracks (the spec's [NoResults]): the
    handler returns, turns the loader off and alerts "No songs found!",
    but leaves [randomSongs] as it was, where the spec asks for an empty
    selection: the grid of an earlier response stays under the alert. *)
Theorem search_empty_keeps_songs (id fuel : nat) (s : State) :
  exists s', handle fuel (SearchOk id (Some [])) s = Some s' /\
    loader s' = false /\ randomSongs s' = randomSongs s /\
    log s' = (log s ++ [Alert "No songs found!"])%list /\
    pending s' = remove_key (KSearch id) (pending s).
Proof.
  unfold handle, handler, search_response. unfold pickSongs at 1.
  rewrite decide_False by (simpl; lia). simpl.
  eexists. split; [reflexivity |].
  rewrite commit_same by (unfold_setters; done). unfold_setters. done.
Qed.

(** (C28) A rejected [Promise.all] of the models has no handler: the
    operation ends, [modelsLoaded] stays as it was and nothing reaches
    the log, where the spec's [DetectorUnavailable] asks for a notice. *)
Theorem models_error_silent (fuel : nat) (s s' : State) :
  handle fuel ModelsErr s = Some s' ->
  modelsLoaded s' = modelsLoaded s /\ log s' = log s /\
  pending s' = remove_key KModels (pending s) /\ loader s' = loader s.
Proof.
  unfold handle, handler. simpl. intros [= <-].
  rewrite commit_same by (unfold_setters; done). unfold_setters. done.
Qed.
End Lifecycle.

(** ** Witnesses *)

Definition happy_shown_first : list (Event nat) :=
  (clicked_happy ++ [SearchOk 0 (Some happy_tracks)])%list.

(** Witness of C22: the first position, 48.85,2.35. *)
Lemma geo_location_roundtrip_witness :
  exists l, location (session_after located) = Some l /\
    split_at ","%char l = Some ("48.85", "2.35") /\ PWeather l ∈ pending (session_after located).
Proof.
  apply (@geo_location_roundtrip weyl_source nat 100 "48.85" "2.35" (session_after []));
    by_compute.
Defined.

(** Witness of C23: the position arrives before the models. *)
Lemma geo_before_models_reloads_witness :
  pending (session_after located) =
    (remove_key KGeo (pending (session_after [])) ++
     [PModels; PWeather (location_string "48.85" "2.35")])%list.
Proof.
  apply (@geo_before_models_reloads weyl_source nat 100 "48.85" "2.35" (session_after []));
    by_compute.
Defined.

(** Witness of C24: Happy under a weather with a space. *)
Lemma search_term_roundtrip_witness :
  split_at " "%char (opt_term (search_options "Happy" "Partly cloudy")) =
  Some ("Happy", "Partly cloudy").
Proof. apply search_term_roundtrip. by_decide. Defined.

Definition detected_happy : list (Event nat) := [OpenWebcam; Detected "Happy"].

(** Witness of C25: the webcam reports Happy twice. *)
Lemma detected_same_mood_noop_witness :
  whandle (Detected "Happy") (session_after detected_happy) = Some (session_after detected_happy).
Proof. apply (@detected_same_mood_noop weyl_source nat "Happy"). by_compute. Defined.

(** Witness of C26: the webcam reports Sad with the weather Sunny. *)
Lemma detected_new_mood_one_search_witness :
  let s := session_after (sunny ++ [OpenWebcam])%list in
  let s' := session_after (sunny ++ [OpenWebcam; Detected "Sad"])%list in
  pending s' = (pending s ++ [PSearch (next_req s) (search_options "Sad" "Sunny")])%list /\
  next_req s' = S (next_req s) /\ loader s' = true /\ emotion s' = Some "Sad".
Proof.
  cbv zeta. apply (@detected_new_mood_one_search weyl_source nat "Sad" "Sunny" 100);
    [by_compute | vm_compute; discriminate | done | by_compute].
Defined.

(** Witness of C28: the models fail to load on the first render. *)
Lemma models_error_silent_witness :
  let s := session_after [] in
  let s' := session_after [ModelsErr] in
  modelsLoaded s' = modelsLoaded s /\ log s' = log s /\
  pending s' = remove_key KModels (pending s) /\ loader s' = loader s.
Proof. cbv zeta. apply (@models_error_silent weyl_source nat 100). by_compute. Defined.

Definition detected_toString : list (Event nat) := [OpenWebcam; Detected "toString"].

(** Witness of C29: the webcam reports the string "toString". *)
Lemma quote_cell_typed_witness :
  let s := session_after detected_toString in
  (reachable s /\ truthy (emotion s) = Some "toString") /\
  (currentQuote s = None <-> "toString" ∈ object_prototype_keys).
Proof.
  cbv zeta. assert (Hr : @reachable weyl_source nat (session_after detected_toString))
    by (apply session_after_reachable; by_compute).
  split; [split; [exact Hr | by_compute] |].
  apply (@quote_cell_typed weyl_source nat); [exact Hr | by_compute].
Defined.

(** The [NoResults] path after an earlier response: search 0 shows
    Happy tracks, search 1 comes back empty; the alert is raised while
    the grid still shows the tracks of search 0 (C27). *)
Example no_results_keeps_grid :
  let s := session_after (happy_shown_first ++ [SearchOk 1 (Some [])])%list in
  last (log s) = Some (Alert "No songs found!") /\ loader s = false /\
  exists sel, view_songs s = SongGrid sel (currentQuote s) /\ sel <> [].
Proof. cbv zeta. vm_compute. split; [done | split; [done |]]. eexists. split; [done | discriminate]. Qed.

(** Witness of C30: the page after the position arrived. *)
Lemma reachable_location_ok_witness :
  let s := session_after located in
  (location s = None \/ exists lat lon, location s = Some (location_string lat lon)) /\
  (location s <> None -> KGeo ∉ key_of <$> pending s) /\
  (forall w, KWeather w ∈ key_of <$> pending s -> location s = Some w).
Proof.
  cbv zeta. apply (@reachable_location_ok weyl_source nat).
  apply session_after_reachable. by_compute.
Defined.
