(* ===== verification/Page.v ===== *)
(** * The rendered page: [MainComponent]'s [return] (lines 206-311)

    [render] is the element tree the component returns, styling left
    out: the title, the seven mood buttons (lines 219-239), the "Play my
    mood!" button (242-244), the [WebcamModal] with its props when
    [webcamModal] is set (246-255), the mood and weather lines (257-266)
    and the spinner / song grid with the quote / nothing part
    ([view_songs] of [Session.v], lines 267-306).  The theorems connect
    the page to the session: the weather line tells whether a click
    sends a search or alerts (C32); the modal is shown while the face
    models are still loading (C33). *)

From S2P Require Import Prelude JsRandom MoodMapper Selector Session.

Local Open Scope string_scope.
Local Open Scope emotify_scope.

(** The props of [<WebcamModal>] (lines 247-252) other than the
    callbacks, which are the events [CloseWebcam] and [Detected]. *)
Record ModalProps := mkModalProps {
  modal_webcamModal : bool;
  modal_modelsLoaded : bool
}.

(** The element tree, as the values it shows. *)
Record Page (Song : Type) := mkPage {
  page_title : string;                     (* <h1>Mood Music</h1> *)
  page_buttons : list (string * string);   (* { emotion, emoji } buttons *)
  page_play : string;                      (* "Play my mood!" *)
  page_modal : option ModalProps;          (* webcamModal ? <WebcamModal/> : <></> *)
  page_mood_line : option string;          (* emotion ? "Mood : " + emotion *)
  page_weather_line : option string;       (* weather ? "Weather : " + weather *)
  page_body : View Song                    (* loader ? Bars : grid or nothing *)
}.

Arguments page_title {Song}.
Arguments page_buttons {Song}.
Arguments page_play {Song}.
Arguments page_modal {Song}.
Arguments page_mood_line {Song}.
Arguments page_weather_line {Song}.
Arguments page_body {Song}.

Definition render {Song : Type} (s : State Song) : Page Song :=
  mkPage Song "Mood Music" mood_buttons "Play my mood!"
    (if webcamModal s then Some (mkModalProps (webcamModal s) (modelsLoaded s)) else None)
    (option_map (fun m => "Mood : " +s m) (truthy (emotion s)))
    (option_map (fun w => "Weather : " +s w) (truthy (weather s)))
    (view_songs s).

Section PageProps.
Context `{RS : RandomSource}.
Context {Song : Type}.
Abbreviation State := (State Song).
Implicit Types (s : State).

Lemma recommendSongs_next_req m s :
  next_req (recommendSongs m s) =
    match truthy (weather s) with Some _ => S (next_req s) | None => next_req s end.
Proof. unfold recommendSongs. by destruct (truthy (weather s)). Qed.

Lemma effect_recommend_next_req s :
  next_req s <= next_req (effect_recommend s) /\
  (truthy (weather s) = None -> next_req (effect_recommend s) = next_req s).
Proof.
  unfold effect_recommend. destruct (truthy (emotion s)); [| split; [lia | done]].
  rewrite recommendSongs_next_req. destruct (truthy (weather s)); (split; [lia | done]).
Qed.

(** (C32) The weather line decides what a mood click does: when the
    page shows no "Weather : ..." line the click sends no search (it
    alerts "Detecting weather..."), and when it shows one the click
    sends a search. *)
Theorem weather_line_decides_search (m : string) (fuel : nat) (s s' : State) :
  handle fuel (ClickMood m) s = Some s' ->
  (page_weather_line (render s) = None <-> next_req s' = next_req s).
Proof.
  intros Hh. unfold handle, handler in Hh. simpl in Hh. injection Hh as <-.
  destruct (recommendSongs_frame m s) as (_ & _ & _ & El & Ew).
  rewrite commit_no_location by done.
  destruct (effect_emotion_frame (recommendSongs m s)) as (_ & _ & _ & _ & Ew' & _ & En').
  pose proof (recommendSongs_next_req m s) as Hn.
  unfold render; cbn [page_weather_line].
  destruct (truthy (weather s)) as [w|] eqn:Hw; simpl.
  - split; [done |]. intros Heq. exfalso.
    case_bool_decide; [lia |].
    pose proof (proj1 (effect_recommend_next_req (effect_emotion (recommendSongs m s)))). lia.
  - split; [intros _ | done]. case_bool_decide; [done |].
    rewrite (proj2 (effect_recommend_next_req _)); [congruence | by rewrite Ew', Ew].
Qed.
End PageProps.

(** (C33) The page opens the webcam modal with [modelsLoaded = false]
    while the face models are loading: a detection can be asked for
    before the detector is available (the spec's [DetectorUnavailable]);
    what the modal does then is [WebcamModal]'s, outside [src/]. *)
Theorem modal_before_models :
  exists s, @reachable weyl_source nat s /\ KModels ∈ key_of <$> pending s /\
    page_modal (render s) = Some (mkModalProps true false).
Proof.
  exists (session_after [OpenWebcam]).
  split; [apply session_after_reachable; by_compute |].
  split; [by_decide | by_compute].
Qed.

(** Witness of C32: a click on Sad before the weather arrived. *)
Lemma weather_line_decides_search_witness :
  page_weather_line (render (session_after located)) = None <->
  next_req (session_after (located ++ [ClickMood "Sad"])%list) = next_req (session_after located).
Proof. apply (@weather_line_decides_search weyl_source nat "Sad" 100). by_compute. Defined.
